(** * instabot-like: the session object of [main.py]

    A shallow embedding of [InstagramBot] and of the contracts its
    specification states about configuration loading and control flow. *)

From Stdlib Require Import QArith Lqa Ascii String.
From stdpp Require Import gmap strings list fin_maps.

(** ** Python values

    The configuration is whatever [json.load] returns, so it is modelled as a
    JSON-shaped Python value.  Floats are modelled by the rational they
    denote; dictionaries are finite maps with string keys. *)

#[local] Set Warnings "-register-all".
Inductive pyval : Type :=
| PNone
| PBool (b : bool)
| PInt (z : Z)
| PFloat (q : Q)
| PStr (s : string)
| PList (l : list pyval)
| PDict (d : gmap string pyval).
#[local] Set Warnings "register-all".

(** Exceptions raised synchronously by the calls the bot makes.  All of them
    derive from Python's [Exception], which is what the handlers of the
    source catch.  An interrupt delivered from outside ([KeyboardInterrupt])
    is asynchronous and not part of the model. *)
Inductive exn : Type :=
| FileNotFoundError
| OSError
| JSONDecodeError
| KeyError
| TypeError
| IndexError
| ValueError
| OverflowError
| TimeoutException
| NoSuchElementException
| WebDriverException.

Inductive outcome (A : Type) : Type :=
| Ret (a : A)
| Raise (e : exn).
Arguments Ret {A} a.
Arguments Raise {A} e.

(** [v[k]] for a string key [k]: only a dict can be subscripted by one. *)
Definition py_getitem (v : pyval) (k : string) : outcome pyval :=
  match v with
  | PDict d => match d !! k with Some x => Ret x | None => Raise KeyError end
  | _ => Raise TypeError
  end.

(** Truth value of an object, as [or] and [if] test it. *)
Definition truthy (v : pyval) : bool :=
  match v with
  | PNone => false
  | PBool b => b
  | PInt z => negb (z =? 0)%Z
  | PFloat q => negb (Qeq_bool q 0)
  | PStr s => negb (String.eqb s "")
  | PList l => match l with [] => false | _ :: _ => true end
  | PDict d => negb (bool_decide (d = ∅))
  end.

(** Numeric value of an operand of float arithmetic ([bool] is an [int]). *)
Definition as_number (v : pyval) : outcome Q :=
  match v with
  | PBool b => Ret (if b then 1%Q else 0%Q)
  | PInt z => Ret (inject_Z z)
  | PFloat q => Ret q
  | _ => Raise TypeError
  end.

(** [r < v] for a float [r]. *)
Definition py_float_lt (r : Q) (v : pyval) : outcome bool :=
  match as_number v with
  | Ret q => Ret (negb (Qle_bool q r))
  | Raise e => Raise e
  end.

(** [l[:stop]] on a list. *)
Definition slice_to {A} (l : list A) (n : Z) : list A :=
  if (n <? 0)%Z then take (Z.to_nat (Z.of_nat (length l) + n)) l
  else take (Z.to_nat n) l.

Definition py_slice_to {A} (l : list A) (stop : pyval) : outcome (list A) :=
  match stop with
  | PNone => Ret l
  | PInt n => Ret (slice_to l n)
  | PBool b => Ret (slice_to l (if b then 1 else 0)%Z)
  | _ => Raise TypeError
  end.

(** The characters of a [str]: the text is held as UTF-8, one character is a
    lead byte with the continuation bytes (10xxxxxx) that follow it. *)
Definition is_continuation (a : Ascii.ascii) : bool :=
  match a with Ascii.Ascii _ _ _ _ _ _ b6 b7 => b7 && negb b6 end.

Fixpoint chars_aux (s : string) : string * list string :=
  match s with
  | EmptyString => (EmptyString, [])
  | String a rest =>
      let '(pending, cs) := chars_aux rest in
      if is_continuation a then (String a pending, cs)
      else (EmptyString, String a pending :: cs)
  end.

Definition py_chars (s : string) : list string :=
  let '(pending, cs) := chars_aux s in
  match pending with EmptyString => cs | _ => pending :: cs end.

(** ** The host and the world the session talks to

    Everything outside the script is a parameter: the file system and JSON
    parser behind [load_config], the browser behind the driver, and the
    random generator.  A call returns a value or raises, and moves the world. *)

(** What [open(path)] followed by [json.load] finds at a path. *)
Inductive file : Type :=
| Absent                              (* open raises FileNotFoundError *)
| Denied                              (* open raises another OSError *)
| Content (parsed : outcome pyval).   (* what json.load makes of the text *)

Definition elem : Type := nat.

Inductive by_ : Type := ByName | ByCssSelector.

Class World (W : Type) : Type := {
  driver_get : string → W → outcome unit * W;
  presence_of_element_located : by_ → string → W → outcome elem * W;
  presence_of_all_elements_located : by_ → string → W → outcome (list elem) * W;
  element_click : elem → W → outcome unit * W;
  element_send_keys : elem → pyval → W → outcome unit * W;
  element_submit : elem → W → outcome unit * W;
  driver_quit : W → outcome unit * W;
  getrandbits : W → N * W
}.

(** ** The trace of a session

    Every call on the browser, every pause and every log record is appended
    to a trace.  Two more events record the control flow the specification
    counts: [Enter] at the entry of [interact_with_user] and of [cleanup],
    [Visit] at each turn of the loop over posts. *)

Inductive method : Type :=
| InteractWithUser (username : string)
| Cleanup.

Inductive logmsg : Type :=
| AttemptingLogin (username : string)
| LoggedIn
| LoginTimeout
| LoginError (e : exn)
| Navigating (username : string)
| Liked (n : nat) (username : string)
| PostError (n : nat) (e : exn)
| ProfileError (username : string) (e : exn)
| LeftComment (text : pyval)
| CommentFailed (e : exn)
| SessionEnded
| CleanupError (e : exn)
| ExecutionFailed (e : exn).

Inductive level : Type := Info | Error.

Inductive event : Type :=
| Enter (m : method)
| Visit (username : string) (i : nat) (post : elem)
| Get (url : string)
| Wait (how : by_) (selector : string)
| WaitAll (how : by_) (selector : string)
| Click (e : elem)
| SendKeys (e : elem) (text : pyval)
| Submit (e : elem)
| Quit
| Sleep (seconds : Q)
| Log (l : level) (msg : logmsg).

(** ** The session object *)

Record bot (W : Type) : Type := Bot {
  username : string;
  password : string;
  config : pyval;
  driver : W;
  trace : list event
}.
Arguments Bot {W} _ _ _ _ _.
Arguments username {W} _.
Arguments password {W} _.
Arguments config {W} _.
Arguments driver {W} _.
Arguments trace {W} _.

(** A method body: it reads and updates the object and the world, and
    returns or raises. *)
Definition M (W A : Type) : Type := bot W → outcome A * bot W.

#[export] Instance M_ret {W} : MRet (M W) := λ A a b, (Ret a, b).

#[export] Instance M_bind {W} : MBind (M W) := λ A B f m b,
  match m b with
  | (Ret a, b') => f a b'
  | (Raise e, b') => (Raise e, b')
  end.

#[export] Instance M_throw {W} : MThrow exn (M W) := λ A e b, (Raise e, b).

(** [try: m except Exception as e: h e] *)
Definition try_except {W A} (m : M W A) (h : exn → M W A) : M W A := λ b,
  match m b with
  | (Ret a, b') => (Ret a, b')
  | (Raise e, b') => h e b'
  end.

(** [try: m finally: f]: [f] runs on every way out of [m]. *)
Definition try_finally {W A} (m : M W A) (f : M W unit) : M W A := λ b,
  let '(r, b') := m b in
  match f b' with
  | (Ret _, b'') => (r, b'')
  | (Raise e, b'') => (Raise e, b'')
  end.

(** [for i, x in enumerate(l, start): body i x] *)
Fixpoint for_enumerate {W X} (start : nat) (l : list X) (body : nat → X → M W unit)
  : M W unit :=
  match l with
  | [] => mret tt
  | x :: rest => body start x ;; for_enumerate (S start) rest body
  end.

Definition for_each {W X} (l : list X) (body : X → M W unit) : M W unit :=
  for_enumerate 0 l (λ _ x, body x).

(** A pure operation that returns or raises. *)
Definition lift {W A} (r : outcome A) : M W A := λ b, (r, b).

(** Appends an event to the trace. *)
Definition emit {W} (e : event) : M W unit := λ b,
  (Ret tt, Bot (username b) (password b) (config b) (driver b) (trace b ++ [e])).

(** A call on the driver, on the wait object or on an element. *)
Definition call {W A} (e : event) (f : W → outcome A * W) : M W A := λ b,
  let '(r, w) := f (driver b) in
  (r, Bot (username b) (password b) (config b) w (trace b ++ [e])).

Definition self_username {W} : M W string := λ b, (Ret (username b), b).
Definition self_password {W} : M W string := λ b, (Ret (password b), b).

(** [self.config[k]] *)
Definition self_config {W} (k : string) : M W pyval := λ b,
  (py_getitem (config b) k, b).

(** [self.logger.info] and [self.logger.error]: a record is written; the
    logging module does not let a failing handler raise into the caller. *)
Definition logger_info {W} (msg : logmsg) : M W unit := emit (Log Info msg).
Definition logger_error {W} (msg : logmsg) : M W unit := emit (Log Error msg).

(** ** [InstagramBot]

    The methods follow [main.py] statement by statement. *)

(** The default configuration of [load_config]. *)
Definition default_config : gmap string pyval :=
  {[ "wait_time" := PDict {[ "min" := PInt 2; "max" := PInt 4 ]};
     "posts_per_user" := PInt 3;
     "max_likes_per_session" := PInt 50;
     "random_comments" :=
       PList [ PStr "Great post! 👍"; PStr "Amazing! 🔥";
               PStr "Love this! ❤️"; PStr "Awesome content! ✨" ];
     "comment_probability" := PFloat (2 # 10) ]}.

(** [open(path, 'r')]: the file, given as what [json.load] will make of it. *)
Definition open_ (fs : string → file) (path : string) : outcome (outcome pyval) :=
  match fs path with
  | Absent => Raise FileNotFoundError
  | Denied => Raise OSError
  | Content parsed => Ret parsed
  end.

(** [load_config]: the handler catches [FileNotFoundError] only, wherever in
    the [with] block it is raised. *)
Definition load_config (fs : string → file) (config_path : string) : outcome pyval :=
  let attempt :=
    match open_ fs config_path with
    | Ret f => f
    | Raise e => Raise e
    end in
  match attempt with
  | Raise FileNotFoundError => Ret (PDict default_config)
  | r => r
  end.

(** The lengths, in seconds, that [time.sleep] can convert are those from
    [- sleep_limit] up to, but not including, [sleep_limit]: [2 ^ 63]
    nanoseconds, some 292 years.  The rounding of that conversion, which
    matters within a microsecond of the two ends, is not modelled. *)
Definition sleep_limit : Q := (2 ^ 63 # 10 ^ 9).

Section Session.
Context {W : Type} {HW : World W}.

(** One output of the generator; no call on the browser, nothing traced. *)
Definition draw : M W N := λ b,
  let '(k, w) := getrandbits (driver b) in
  (Ret k, Bot (username b) (password b) (config b) w (trace b)).

(** [random.random()]: 53 random bits scaled into [0, 1). *)
Definition random_random : M W Q :=
  k ← draw; mret (Z.of_N (k mod 2 ^ 53)%N # (2 ^ 53)%positive).

(** [random.uniform(a, b)] is [a + (b - a) * random()]; the subtraction is
    evaluated, and fails on operands that are not numbers, before the draw.
    The arithmetic is that of the rationals: the rounding of binary64, which
    can return the end point [b] itself, and the overflow of integers beyond
    the range of a double are outside the model, so that only bounds that
    survive rounding are stated of its result. *)
Definition random_uniform (a b : pyval) : M W Q :=
  x ← lift (as_number a);
  y ← lift (as_number b);
  r ← random_random;
  mret (x + (y - x) * r)%Q.

(** [len(v)] *)
Definition py_len (v : pyval) : outcome nat :=
  match v with
  | PStr s => Ret (length (py_chars s))
  | PList l => Ret (length l)
  | PDict d => Ret (size d)
  | _ => Raise TypeError
  end.

(** [v[i]] for an integer [i]; the keys of a JSON object are strings. *)
Definition py_index (v : pyval) (i : nat) : outcome pyval :=
  match v with
  | PList l => match l !! i with Some x => Ret x | None => Raise IndexError end
  | PStr s =>
      match py_chars s !! i with Some c => Ret (PStr c) | None => Raise IndexError end
  | PDict _ => Raise KeyError
  | _ => Raise TypeError
  end.

(** [random.choice(seq)]: an empty sequence is refused, otherwise one draw
    picks the index. *)
Definition random_choice (seq : pyval) : M W pyval :=
  n ← lift (py_len seq);
  match n with
  | O => mthrow IndexError
  | S _ => k ← draw; lift (py_index seq (N.to_nat (k mod N.of_nat n)))
  end.

(** [time.sleep(x)] first converts [x] to a count of nanoseconds, which must
    fit a 64-bit integer, and then refuses a negative length. *)
Definition time_sleep (x : Q) : M W unit :=
  if Qle_bool (- sleep_limit) x && negb (Qle_bool sleep_limit x)
  then if Qle_bool 0 x then emit (Sleep x) else mthrow ValueError
  else mthrow OverflowError.

(** [a or m]: [m] is evaluated only when [a] is falsy. *)
Definition py_or (a : pyval) (m : M W pyval) : M W pyval :=
  if truthy a then mret a else m.

Definition random_sleep (min_time max_time : pyval) : M W unit :=
  min_time ← py_or min_time (wt ← self_config "wait_time"; lift (py_getitem wt "min"));
  max_time ← py_or max_time (wt ← self_config "wait_time"; lift (py_getitem wt "max"));
  x ← random_uniform min_time max_time;
  time_sleep x.

(** [self.wait.until(EC.presence_of_element_located((how, selector)))] *)
Definition wait_until (how : by_) (selector : string) : M W elem :=
  call (Wait how selector) (presence_of_element_located how selector).

Definition wait_until_all (how : by_) (selector : string) : M W (list elem) :=
  call (WaitAll how selector) (presence_of_all_elements_located how selector).

Definition click (e : elem) : M W unit := call (Click e) (element_click e).
Definition send_keys (e : elem) (text : pyval) : M W unit :=
  call (SendKeys e text) (element_send_keys e text).
Definition submit (e : elem) : M W unit := call (Submit e) (element_submit e).

Definition login : M W bool :=
  try_except
    (user ← self_username;
     logger_info (AttemptingLogin user);;
     call (Get "https://www.instagram.com/accounts/login/")
          (driver_get "https://www.instagram.com/accounts/login/");;
     username_input ← wait_until ByName "username";
     password_input ← wait_until ByName "password";
     send_keys username_input (PStr user);;
     pass ← self_password;
     send_keys password_input (PStr pass);;
     submit password_input;;
     wait_until ByCssSelector "main[role='main']";;
     logger_info LoggedIn;;
     mret true)
    (λ e,
       match e with
       | TimeoutException => logger_error LoginTimeout;; mret false
       | _ => logger_error (LoginError e);; mret false
       end).

Definition leave_comment (comment_text : pyval) : M W unit :=
  try_except
    (comment_input ← wait_until ByCssSelector "textarea[aria-label='Add a comment…']";
     click comment_input;;
     send_keys comment_input comment_text;;
     submit comment_input;;
     logger_info (LeftComment comment_text);;
     random_sleep PNone PNone)
    (λ e, logger_error (CommentFailed e)).

(** The part of [interact_with_user] before the loop: open the profile and
    take the first posts found on it. *)
Definition find_posts (user : string) : M W (list elem) :=
  logger_info (Navigating user);;
  call (Get ("https://www.instagram.com/" +:+ user +:+ "/"))
       (driver_get ("https://www.instagram.com/" +:+ user +:+ "/"));;
  random_sleep PNone PNone;;
  found ← wait_until_all ByCssSelector "article a";
  limit ← self_config "posts_per_user";
  lift (py_slice_to found limit).

(** The [try] block inside the loop over posts.  A [WebElement] is always
    truthy, so the test on [like_button] always passes. *)
Definition post_interaction (user : string) (i : nat) (post : elem) : M W unit :=
  try_except
    (click post;;
     random_sleep PNone PNone;;
     like_button ← wait_until ByCssSelector "svg[aria-label='Like']";
     click like_button;;
     logger_info (Liked (i + 1) user);;
     r ← random_random;
     p ← self_config "comment_probability";
     c ← lift (py_float_lt r p);
     (if c : bool then
        comments ← self_config "random_comments";
        text ← random_choice comments;
        leave_comment text
      else mret tt);;
     close_button ← wait_until ByCssSelector "svg[aria-label='Close']";
     click close_button;;
     random_sleep PNone PNone)
    (λ e, logger_error (PostError (i + 1) e)).

(** One turn of the loop over posts. *)
Definition visit_post (user : string) (i : nat) (post : elem) : M W unit :=
  emit (Visit user i post);;
  post_interaction user i post.

Definition interact_with_user (user : string) : M W unit :=
  emit (Enter (InteractWithUser user));;
  try_except
    (posts ← find_posts user;
     for_enumerate 0 posts (visit_post user))
    (λ e, logger_error (ProfileError user e)).

Definition cleanup : M W unit :=
  emit (Enter Cleanup);;
  try_except
    (call Quit driver_quit;;
     logger_info SessionEnded)
    (λ e, logger_error (CleanupError e)).

(** The argument of [run].  The annotation allows a list of names or a
    single name; it is not enforced, and an argument that cannot be iterated
    makes the [for] raise. *)
Inductive targets : Type :=
| Names (l : list string)
| Name (s : string)
| NotIterable.

(** What the [for] statement iterates over. *)
Definition py_iter (target_users : targets) : outcome (list string) :=
  match target_users with
  | Names l => Ret l
  | Name s => Ret (py_chars s)
  | NotIterable => Raise TypeError
  end.

Definition run (target_users : targets) : M W unit :=
  try_finally
    (try_except
       (let target_users :=
          match target_users with
          | Name s => Names [s]
          | _ => target_users
          end in
        ok ← login;
        if negb ok then mret tt
        else
          users ← lift (py_iter target_users);
          for_each users (λ user,
            interact_with_user user;;
            random_sleep (PInt 4) (PInt 7)))
       (λ e, logger_error (ExecutionFailed e)))
    cleanup.

End Session.

(** [__init__]: the configuration is loaded first, then logging is set up
    and the browser is started; each of the three can raise. *)
Record host (W : Type) : Type := Host {
  files : string → file;
  log_handlers : outcome unit;
  chrome : outcome W
}.
Arguments Host {W} _ _ _.
Arguments files {W} _.
Arguments log_handlers {W} _.
Arguments chrome {W} _.

Definition init {W} (h : host W) (user pass config_path : string) : outcome (bot W) :=
  match load_config (files h) config_path with
  | Raise e => Raise e
  | Ret cfg =>
      match log_handlers h with
      | Raise e => Raise e
      | Ret _ =>
          match chrome h with
          | Raise e => Raise e
          | Ret w => Ret (Bot user pass cfg w [])
          end
      end
  end.

(** ** A scripted browser

    A page model to run the session on: the world is the generator's state
    and the post that is open.  The script says whether the login page
    loads, which posts a profile shows, and on which posts the like button
    is missing. *)
Module Scripted.

Record script : Type := Script {
  login_loads : bool;
  profile_posts : outcome (list elem);
  unlikable : list elem;
  bits : N
}.

Definition world : Type := (N * option elem)%type.

Definition start (s : script) : world := (bits s, None).

Definition scripted (s : script) : World world := {|
  driver_get := λ _ w, (Ret tt, w);
  presence_of_element_located := λ _ selector w,
    if String.eqb selector "main[role='main']" then
      (if login_loads s then Ret 1%nat else Raise TimeoutException, w)
    else if String.eqb selector "svg[aria-label='Like']" then
      match w.2 with
      | Some p => if bool_decide (p ∈ unlikable s) then (Raise TimeoutException, w)
                  else (Ret 2%nat, w)
      | None => (Raise TimeoutException, w)
      end
    else (Ret 3%nat, w);
  presence_of_all_elements_located := λ _ _ w, (profile_posts s, w);
  element_click := λ e w, (Ret tt, (w.1, if bool_decide (10 ≤ e)%nat then Some e else w.2));
  element_send_keys := λ _ _ w, (Ret tt, w);
  element_submit := λ _ w, (Ret tt, w);
  driver_quit := λ w, (Ret tt, w);
  getrandbits := λ w, (w.1, ((w.1 * 6364136223846793005 + 1442695040888963407) mod 2 ^ 64, w.2)%N)
|}.

Definition session (s : script) (cfg : pyval) : bot world :=
  Bot "sandanu_hewage" "" cfg (start s) [].

(** A page on which every step succeeds and a profile shows three posts. *)
Definition plain : script := Script true (Ret [10; 11; 12]%nat) [] 7.

End Scripted.

(** ** Observations on a session

    What the contracts below are stated with: the markers of a trace and
    what they count, observations that a method leaves unchanged, and the
    relation between two sessions that differ in the like cap only. *)

(** The events the control-flow contracts look at. *)
Definition is_marker (e : event) : bool :=
  match e with
  | Enter _ | Visit _ _ _ | Quit => true
  | _ => false
  end.

(** The key of the session-wide like cap. *)
Definition like_cap : string := "max_likes_per_session".

(** Two configurations that answer alike to every key but the like cap. *)
Definition cfg_sim (c1 c2 : pyval) : Prop :=
  ∀ k, k ≠ like_cap → py_getitem c1 k = py_getitem c2 k.

(** The entry of [cleanup]. *)
Definition is_cleanup (e : event) : bool :=
  match e with Enter Cleanup => true | _ => false end.

(** How many times [cleanup] was entered. *)
Definition cleanup_calls (t : list event) : nat := length (List.filter is_cleanup t).

(** A call of [driver.quit()]. *)
Definition is_quit (e : event) : bool :=
  match e with Quit => true | _ => false end.

(** How many times [driver.quit()] was called. *)
Definition quit_calls (t : list event) : nat := length (List.filter is_quit t).

(** The markers of the loop over profiles. *)
Definition in_loop (e : event) : bool :=
  match e with
  | Enter (InteractWithUser _) | Visit _ _ _ => true
  | _ => false
  end.

(** The profiles [interact_with_user] was called on, in order. *)
Fixpoint profiles (t : list event) : list string :=
  match t with
  | [] => []
  | Enter (InteractWithUser u) :: t' => u :: profiles t'
  | _ :: t' => profiles t'
  end.

(** The posts the loop of [interact_with_user] reached, in order. *)
Fixpoint visits (t : list event) : list (string * nat * elem) :=
  match t with
  | [] => []
  | Visit u i p :: t' => (u, i, p) :: visits t'
  | _ :: t' => visits t'
  end.

(** [enumerate(posts, start)] for the posts of one profile. *)
Fixpoint enumerate (user : string) (start : nat) (posts : list elem)
  : list (string * nat * elem) :=
  match posts with
  | [] => []
  | p :: rest => (user, start, p) :: enumerate user (S start) rest
  end.

(** The markers a list of visits leaves in the trace. *)
Definition marks (vs : list (string * nat * elem)) : list event :=
  map (λ v, Visit v.1.1 v.1.2 v.2) vs.

(** The names the loop of [run] goes through. *)
Definition users_of (target_users : targets) : list string :=
  match target_users with
  | Name s => [s]
  | Names l => l
  | NotIterable => []
  end.

Section Observations.
Context {W : Type} {HW : World W}.

(** The method body [m] never changes the observation [g], whether it
    returns or raises. *)
Definition stable {X A} (g : bot W → X) (m : M W A) : Prop :=
  ∀ b, g (m b).2 = g b.

(** An observation of the object only: blind to the world and to the trace. *)
Definition of_self {X} (g : bot W → X) : Prop :=
  ∀ u p c w t w' t', g (Bot u p c w t) = g (Bot u p c w' t').

(** The markers in the trace of a session. *)
Definition markers (b : bot W) : list event := List.filter is_marker (trace b).

(** An observation that steps without a marker leave alone. *)
Definition blind {X} (g : bot W → X) : Prop :=
  (∀ e, is_marker e = false → stable g (emit e)) ∧
  (∀ A e (f : W → outcome A * W), is_marker e = false → stable g (call e f)) ∧
  stable g draw.

(** Two sessions that are alike but for the like cap. *)
Definition sim (b1 b2 : bot W) : Prop :=
  username b1 = username b2 ∧ password b1 = password b2 ∧
  driver b1 = driver b2 ∧ trace b1 = trace b2 ∧
  cfg_sim (config b1) (config b2).

(** On two such sessions [m] gives the same result and leaves two such
    sessions. *)
Definition respects {A} (m : M W A) : Prop :=
  ∀ b1 b2, sim b1 b2 → (m b1).1 = (m b2).1 ∧ sim (m b1).2 (m b2).2.

(** The state in which the [try] block of [interact_with_user] starts. *)
Definition entered (user : string) (b : bot W) : bot W :=
  (emit (Enter (InteractWithUser user)) b).2.

(** The posts the slice kept, none when the profile could not be opened. *)
Definition posts_taken (user : string) (b : bot W) : list elem :=
  match (find_posts user (entered user b)).1 with
  | Ret posts => posts
  | Raise _ => []
  end.

End Observations.

(** The operations of the session object. *)
Inductive operation : Type :=
| OpRandomSleep (min_time max_time : pyval)
| OpLogin
| OpInteractWithUser (user : string)
| OpLeaveComment (comment_text : pyval)
| OpCleanup
| OpRun (target_users : targets).

(** The object after one operation, whether it returned or raised. *)
Definition perform {W : Type} {HW : World W} (b : bot W) (o : operation) : bot W :=
  match o with
  | OpRandomSleep min_time max_time => (random_sleep min_time max_time b).2
  | OpLogin => (login b).2
  | OpInteractWithUser user => (interact_with_user user b).2
  | OpLeaveComment comment_text => (leave_comment comment_text b).2
  | OpCleanup => (cleanup b).2
  | OpRun target_users => (run target_users b).2
  end.


(** A configuration whose limit is -1. *)
Definition negative_limit : pyval :=
  PDict (<[ "posts_per_user" := PInt (-1) ]> default_config).

(** A login page that never loads. *)
Definition login_fails : Scripted.script :=
  Scripted.Script false (Ret [10; 11; 12]%nat) [] 7.

(** A profile whose second post has no like button. *)
Definition flaky : Scripted.script :=
  Scripted.Script true (Ret [10; 11; 12]%nat) [11%nat] 7.

(** The bound [random_sleep] works with for one argument: the argument
    itself when it is truthy, the configured [wait_time] entry otherwise. *)
Definition effective_bound (arg : pyval) (key : string) (cfg : pyval) : outcome pyval :=
  if truthy arg then Ret arg
  else match py_getitem cfg "wait_time" with
       | Ret wt => py_getitem wt key
       | Raise e => Raise e
       end.

(** The address of a profile page. *)
Definition profile_url (user : string) : string :=
  "https://www.instagram.com/" +:+ user +:+ "/".

(** The first statements of [interact_with_user], up to the list of posts
    the page shows. *)
Definition listing {W : Type} {HW : World W} (user : string) : M W (list elem) :=
  logger_info (Navigating user);;
  call (Get (profile_url user)) (driver_get (profile_url user));;
  random_sleep PNone PNone;;
  wait_until_all ByCssSelector "article a".

(** A log record of a like that went through. *)
Definition is_liked (e : event) : bool :=
  match e with Log Info (Liked _ _) => true | _ => false end.

(** A log record of a comment that was submitted. *)
Definition is_comment (e : event) : bool :=
  match e with Log Info (LeftComment _) => true | _ => false end.

(** A turn of the loop over posts. *)
Definition is_visit (e : event) : bool :=
  match e with Visit _ _ _ => true | _ => false end.

(** How many likes, and how many comments, a trace records. *)
Definition likes (t : list event) : nat := length (List.filter is_liked t).
Definition comments (t : list event) : nat := length (List.filter is_comment t).

(** A weight on events, summed over a trace. *)
Definition weight (w : event → Z) (t : list event) : Z :=
  foldr (λ e s, (w e + s)%Z) 0%Z t.

(** One for an event of the first kind, minus one for one of the second. *)
Definition credit (p q : event → bool) (e : event) : Z :=
  ((if p e then 1 else 0) - (if q e then 1 else 0))%Z.

(** Whatever way [m] ends, the weight of the trace has grown by [k] at least. *)
Definition gains {W A : Type} (w : event → Z) (k : Z) (m : M W A) : Prop :=
  ∀ b, (weight w (trace b) + k ≤ weight w (trace (m b).2))%Z.

(** A weight that only a like or a comment record can make negative. *)
Definition tame (w : event → Z) : Prop :=
  ∀ e, is_liked e = false → is_comment e = false → (0 ≤ w e)%Z.

(** The address of the login page. *)
Definition login_url : string := "https://www.instagram.com/accounts/login/".

(** The events a user of the bot watches: a page request, a text typed
    into the page, a pause. *)
Definition sensitive (e : event) : bool :=
  match e with
  | Get _ | SendKeys _ _ | Sleep _ => true
  | _ => false
  end.

(** The object holds this configuration and these credentials. *)
Definition self_is {W : Type} (c : pyval) (u p : string) (b : bot W) : Prop :=
  config b = c ∧ username b = u ∧ password b = p.

(** On such an object [m] leaves the three fields alone and appends to the
    trace only events that satisfy [P]. *)
Definition only {W A : Type} (c : pyval) (u p : string) (P : event → Prop) (m : M W A)
  : Prop :=
  ∀ b, self_is c u p b →
       self_is c u p (m b).2 ∧
       ∃ evs, trace (m b).2 = trace b ++ evs ∧ Forall P evs.

(** A log record. *)
Definition is_log (e : event) : bool :=
  match e with Log _ _ => true | _ => false end.

(** The record [login] writes for the exception that stopped it. *)
Definition login_failure (e : exn) : logmsg :=
  match e with
  | TimeoutException => LoginTimeout
  | _ => LoginError e
  end.




(** ** Reasoning about method bodies *)

(** A character outside ASCII counts once. *)
Example py_chars_emoji : length (py_chars "Amazing! 🔥") = 10%nat.
Proof. reflexivity. Qed.

Section Laws.
Context {W : Type} {HW : World W}.

Lemma bind_unfold {A B} (m : M W A) (f : A → M W B) (b : bot W) :
  (m ≫= f) b =
  match m b with
  | (Ret a, b') => f a b'
  | (Raise e, b') => (Raise e, b')
  end.
Proof. reflexivity. Qed.

(** *** Observations no step of a body changes *)

Lemma stable_ret {X A} (g : bot W → X) (a : A) : stable g (mret a).
Proof. intros b. reflexivity. Qed.

Lemma stable_throw {X A} (g : bot W → X) (e : exn) : stable g (mthrow e : M W A).
Proof. intros b. reflexivity. Qed.

Lemma stable_lift {X A} (g : bot W → X) (r : outcome A) : stable g (lift r).
Proof. intros b. reflexivity. Qed.

Lemma stable_bind {X A B} (g : bot W → X) (m : M W A) (f : A → M W B) :
  stable g m → (∀ a, stable g (f a)) → stable g (m ≫= f).
Proof.
  intros Hm Hf b. rewrite bind_unfold. specialize (Hm b).
  destruct (m b) as [[a|e] b']; simpl in *; [rewrite Hf|]; exact Hm.
Qed.

Lemma stable_try {X A} (g : bot W → X) (m : M W A) (h : exn → M W A) :
  stable g m → (∀ e, stable g (h e)) → stable g (try_except m h).
Proof.
  intros Hm Hh b. unfold try_except. specialize (Hm b).
  destruct (m b) as [[a|e] b']; simpl in *; [|rewrite Hh]; exact Hm.
Qed.

Lemma stable_finally {X A} (g : bot W → X) (m : M W A) (f : M W unit) :
  stable g m → stable g f → stable g (try_finally m f).
Proof.
  intros Hm Hf b. unfold try_finally. specialize (Hm b).
  destruct (m b) as [r b']. specialize (Hf b').
  destruct (f b') as [[[]|e] b'']; simpl in *; congruence.
Qed.

Lemma stable_for {X Y} (g : bot W → X) (l : list Y) (body : nat → Y → M W unit) :
  (∀ i y, stable g (body i y)) → ∀ i, stable g (for_enumerate i l body).
Proof.
  intros Hbody. induction l as [|y l IH]; intros i; simpl.
  - apply stable_ret.
  - apply stable_bind; [apply Hbody|intros _; apply IH].
Qed.

Lemma stable_self_config {X} (g : bot W → X) (k : string) : stable g (self_config k).
Proof. intros b. reflexivity. Qed.

Lemma stable_self_username {X} (g : bot W → X) : stable g self_username.
Proof. intros b. reflexivity. Qed.

Lemma stable_self_password {X} (g : bot W → X) : stable g self_password.
Proof. intros b. reflexivity. Qed.

Lemma stable_emit_self {X} (g : bot W → X) (e : event) : of_self g → stable g (emit e).
Proof. intros Hg [u p c w t]. apply Hg. Qed.

Lemma stable_call_self {X A} (g : bot W → X) (e : event) (f : W → outcome A * W) :
  of_self g → stable g (call e f).
Proof.
  intros Hg [u p c w t]. unfold call. simpl. destruct (f w) as [r w']. apply Hg.
Qed.

Lemma stable_draw_self {X} (g : bot W → X) : of_self g → stable g draw.
Proof.
  intros Hg [u p c w t]. unfold draw. simpl. destruct (getrandbits w) as [k w']. apply Hg.
Qed.

Lemma markers_emit (e : event) (b : bot W) :
  markers (emit e b).2 = markers b ++ (if is_marker e then [e] else []).
Proof.
  unfold markers. simpl. rewrite List.filter_app. simpl. destruct (is_marker e); reflexivity.
Qed.

Lemma stable_emit_markers (e : event) : is_marker e = false → stable (W := W) markers (emit e).
Proof. intros He b. rewrite markers_emit, He. apply app_nil_r. Qed.

Lemma stable_call_markers {A} (e : event) (f : W → outcome A * W) :
  is_marker e = false → stable markers (call e f).
Proof.
  intros He b. unfold call, markers. destruct (f (driver b)) as [r w']. simpl.
  rewrite List.filter_app. simpl. rewrite He. apply app_nil_r.
Qed.

Lemma stable_draw_markers : stable (W := W) markers draw.
Proof. intros b. unfold draw, markers. destruct (getrandbits (driver b)). reflexivity. Qed.

End Laws.

(** Walks a method body down to its calls; [leaf] closes the calls. *)
Ltac stable_walk leaf :=
  repeat first
    [ apply stable_ret | apply stable_throw | apply stable_lift
    | apply stable_self_config | apply stable_self_username
    | apply stable_self_password
    | leaf
    | apply stable_bind; [ | intros ? ]
    | apply stable_try; [ | intros ? ]
    | apply stable_finally
    | apply stable_for; intros ? ?
    | match goal with
      | |- stable _ (if ?c then _ else _) => destruct c
      | |- stable _ (match ?x with _ => _ end) => destruct x
      end ].

Section Blind.
Context {W : Type} {HW : World W}.

Lemma blind_markers : blind (W := W) markers.
Proof.
  split; [|split].
  - apply stable_emit_markers.
  - intros A. apply stable_call_markers.
  - apply stable_draw_markers.
Qed.

Lemma blind_of_self {X} (g : bot W → X) : of_self g → blind g.
Proof.
  intros Hg. split; [|split].
  - intros e _. apply stable_emit_self, Hg.
  - intros A e f _. apply stable_call_self, Hg.
  - apply stable_draw_self, Hg.
Qed.

Context {X : Type} (g : bot W → X) (Hg : blind g).

Let leaf_emit e : is_marker e = false → stable g (emit e) := proj1 Hg e.
Let leaf_call A e f : is_marker e = false → stable g (call e f) := proj1 (proj2 Hg) A e f.
Let leaf_draw : stable g draw := proj2 (proj2 Hg).

Ltac leaf0 :=
  first [ apply leaf_draw
        | apply leaf_emit; reflexivity
        | apply leaf_call; reflexivity ].

Lemma stable_random_random : stable g random_random.
Proof. unfold random_random. stable_walk leaf0. Qed.

Lemma stable_random_uniform a b : stable g (random_uniform a b).
Proof. unfold random_uniform. stable_walk ltac:(first [apply stable_random_random | leaf0]). Qed.

Lemma stable_random_choice seq : stable g (random_choice seq).
Proof. unfold random_choice. stable_walk leaf0. Qed.

Lemma stable_time_sleep x : stable g (time_sleep x).
Proof. unfold time_sleep. stable_walk leaf0. Qed.

Lemma stable_random_sleep a b : stable g (random_sleep a b).
Proof.
  unfold random_sleep, py_or.
  stable_walk ltac:(first [apply stable_random_uniform | apply stable_time_sleep | leaf0]).
Qed.

Ltac leaf1 :=
  first [ apply stable_random_sleep | apply stable_random_random
        | apply stable_random_choice
        | unfold wait_until, wait_until_all, click, send_keys, submit,
            logger_info, logger_error; leaf0 ].

Lemma stable_login : stable g login.
Proof. unfold login. stable_walk leaf1. Qed.

Lemma stable_leave_comment text : stable g (leave_comment text).
Proof. unfold leave_comment. stable_walk leaf1. Qed.

Lemma stable_find_posts user : stable g (find_posts user).
Proof. unfold find_posts. stable_walk leaf1. Qed.

Lemma stable_post_interaction user i post : stable g (post_interaction user i post).
Proof. unfold post_interaction. stable_walk ltac:(first [apply stable_leave_comment | leaf1]). Qed.

End Blind.

(** *** The object's own fields *)

Section Self.
Context {W : Type} {HW : World W} {X : Type} (g : bot W → X) (Hg : of_self g).

Ltac leaf2 :=
  first [ apply stable_random_sleep, blind_of_self, Hg
        | apply stable_login, blind_of_self, Hg
        | apply stable_find_posts, blind_of_self, Hg
        | apply stable_post_interaction, blind_of_self, Hg
        | apply stable_emit_self, Hg
        | apply stable_call_self, Hg
        | unfold logger_info, logger_error; apply stable_emit_self, Hg ].

Lemma self_visit_post user i post : stable g (visit_post user i post).
Proof. unfold visit_post. stable_walk leaf2. Qed.

Lemma self_interact_with_user user : stable g (interact_with_user user).
Proof. unfold interact_with_user. stable_walk ltac:(first [apply self_visit_post | leaf2]). Qed.

Lemma self_cleanup : stable g cleanup.
Proof. unfold cleanup. stable_walk leaf2. Qed.

Lemma self_run target_users : stable g (run target_users).
Proof.
  unfold run, for_each.
  stable_walk ltac:(first [apply self_interact_with_user | apply self_cleanup | leaf2]).
Qed.

End Self.

(** *** Two sessions that differ in the like cap only *)

Section Cap.
Context {W : Type} {HW : World W}.

Lemma respects_ret {A} (a : A) : respects (mret a : M W A).
Proof. intros b1 b2 Hs. split; [reflexivity|exact Hs]. Qed.

Lemma respects_throw {A} (e : exn) : respects (mthrow e : M W A).
Proof. intros b1 b2 Hs. split; [reflexivity|exact Hs]. Qed.

Lemma respects_lift {A} (r : outcome A) : respects (lift r : M W A).
Proof. intros b1 b2 Hs. split; [reflexivity|exact Hs]. Qed.

Lemma respects_bind {A B} (m : M W A) (f : A → M W B) :
  respects m → (∀ a, respects (f a)) → respects (m ≫= f).
Proof.
  intros Hm Hf b1 b2 Hs. rewrite !bind_unfold.
  destruct (Hm b1 b2 Hs) as [Hr Hs'].
  destruct (m b1) as [r1 b1'], (m b2) as [r2 b2']. simpl in *. subst r2.
  destruct r1 as [a|e]; [apply Hf, Hs'|split; [reflexivity|exact Hs']].
Qed.

Lemma respects_try {A} (m : M W A) (h : exn → M W A) :
  respects m → (∀ e, respects (h e)) → respects (try_except m h).
Proof.
  intros Hm Hh b1 b2 Hs. unfold try_except.
  destruct (Hm b1 b2 Hs) as [Hr Hs'].
  destruct (m b1) as [r1 b1'], (m b2) as [r2 b2']. simpl in *. subst r2.
  destruct r1 as [a|e]; [split; [reflexivity|exact Hs']|apply Hh, Hs'].
Qed.

Lemma respects_finally {A} (m : M W A) (f : M W unit) :
  respects m → respects f → respects (try_finally m f).
Proof.
  intros Hm Hf b1 b2 Hs. unfold try_finally.
  destruct (Hm b1 b2 Hs) as [Hr Hs'].
  destruct (m b1) as [r1 b1'], (m b2) as [r2 b2']. simpl in *. subst r2.
  destruct (Hf b1' b2' Hs') as [Hr' Hs''].
  destruct (f b1') as [q1 b1''], (f b2') as [q2 b2'']. simpl in *. subst q2.
  destruct q1 as [[]|e]; split; solve [reflexivity | exact Hs''].
Qed.

Lemma respects_for {Y} (l : list Y) (body : nat → Y → M W unit) :
  (∀ i y, respects (body i y)) → ∀ i, respects (for_enumerate i l body).
Proof.
  intros Hbody. induction l as [|y l IH]; intros i; simpl.
  - apply respects_ret.
  - apply respects_bind; [apply Hbody|intros _; apply IH].
Qed.

Lemma respects_self_username : respects (self_username : M W string).
Proof. intros b1 b2 Hs. split; [simpl; f_equal; apply Hs|exact Hs]. Qed.

Lemma respects_self_password : respects (self_password : M W string).
Proof. intros b1 b2 Hs. split; [simpl; f_equal; apply Hs|exact Hs]. Qed.

Lemma respects_self_config (k : string) : k ≠ like_cap → respects (self_config k : M W pyval).
Proof. intros Hk b1 b2 Hs. split; [apply Hs, Hk|exact Hs]. Qed.

Lemma respects_emit (e : event) : respects (emit e : M W unit).
Proof.
  intros b1 b2 (Hu & Hp & Hd & Ht & Hc). split; [reflexivity|].
  unfold sim. simpl. rewrite Hu, Hp, Ht. auto.
Qed.

Lemma respects_call {A} (e : event) (f : W → outcome A * W) : respects (call e f).
Proof.
  intros b1 b2 (Hu & Hp & Hd & Ht & Hc). unfold call. rewrite Hd.
  destruct (f (driver b2)) as [r w]. split; [reflexivity|].
  unfold sim. simpl. rewrite Hu, Hp, Ht. auto.
Qed.

Lemma respects_draw : respects draw.
Proof.
  intros b1 b2 (Hu & Hp & Hd & Ht & Hc). unfold draw. rewrite Hd.
  destruct (getrandbits (driver b2)) as [k w]. split; [reflexivity|].
  unfold sim. simpl. rewrite Hu, Hp, Ht. auto.
Qed.

Ltac respects_walk leaf :=
  repeat first
    [ apply respects_ret | apply respects_throw | apply respects_lift
    | apply respects_self_username | apply respects_self_password
    | apply respects_self_config; discriminate
    | apply respects_draw | apply respects_emit | apply respects_call
    | leaf
    | apply respects_bind; [ | intros ? ]
    | apply respects_try; [ | intros ? ]
    | apply respects_finally
    | apply respects_for; intros ? ?
    | match goal with
      | |- respects (if ?c then _ else _) => destruct c
      | |- respects (match ?x with _ => _ end) => destruct x
      end ].

Lemma respects_random_sleep a b : respects (random_sleep a b).
Proof.
  unfold random_sleep, py_or, random_uniform, random_random, time_sleep.
  respects_walk fail.
Qed.

Lemma respects_login : respects login.
Proof.
  unfold login, wait_until, send_keys, submit, logger_info, logger_error.
  respects_walk fail.
Qed.

Lemma respects_leave_comment text : respects (leave_comment text).
Proof.
  unfold leave_comment, wait_until, click, send_keys, submit, logger_info, logger_error.
  respects_walk ltac:(apply respects_random_sleep).
Qed.

Lemma respects_interact_with_user user : respects (interact_with_user user).
Proof.
  unfold interact_with_user, find_posts, visit_post, post_interaction, random_choice,
    random_random, wait_until, wait_until_all, click, logger_info, logger_error.
  respects_walk ltac:(first [apply respects_random_sleep | apply respects_leave_comment]).
Qed.

Lemma respects_cleanup : respects cleanup.
Proof. unfold cleanup, logger_info, logger_error. respects_walk fail. Qed.

Lemma respects_run target_users : respects (run target_users).
Proof.
  unfold run, for_each, logger_error.
  respects_walk ltac:(first [apply respects_random_sleep | apply respects_login
                            | apply respects_interact_with_user | apply respects_cleanup]).
Qed.

End Cap.

(** *** What a trace says about the control flow *)

Lemma cleanup_calls_app t1 t2 : cleanup_calls (t1 ++ t2) = (cleanup_calls t1 + cleanup_calls t2)%nat.
Proof. unfold cleanup_calls. rewrite List.filter_app, length_app. reflexivity. Qed.

Lemma quit_calls_app t1 t2 : quit_calls (t1 ++ t2) = (quit_calls t1 + quit_calls t2)%nat.
Proof. unfold quit_calls. rewrite List.filter_app, length_app. reflexivity. Qed.

Lemma profiles_app t1 t2 : profiles (t1 ++ t2) = profiles t1 ++ profiles t2.
Proof.
  induction t1 as [|e t1 IH]; [reflexivity|].
  destruct e as [[u|]| | | | | | | | | |]; simpl; rewrite IH; reflexivity.
Qed.

Lemma visits_app t1 t2 : visits (t1 ++ t2) = visits t1 ++ visits t2.
Proof.
  induction t1 as [|e t1 IH]; [reflexivity|].
  destruct e; simpl; rewrite IH; reflexivity.
Qed.

Lemma cleanup_calls_markers t : cleanup_calls (List.filter is_marker t) = cleanup_calls t.
Proof.
  induction t as [|e t IH]; [reflexivity|].
  destruct e as [[u|]| | | | | | | | | |]; simpl; unfold cleanup_calls in *; simpl; auto.
Qed.

Lemma quit_calls_markers t : quit_calls (List.filter is_marker t) = quit_calls t.
Proof.
  induction t as [|e t IH]; [reflexivity|].
  destruct e as [[u|]| | | | | | | | | |]; simpl; unfold quit_calls in *; simpl; auto.
Qed.

(** The loop over profiles neither enters [cleanup] nor quits the browser. *)
Lemma in_loop_calls evs :
  forallb in_loop evs = true → cleanup_calls evs = 0%nat ∧ quit_calls evs = 0%nat.
Proof.
  unfold cleanup_calls, quit_calls. induction evs as [|e evs IH]; [auto|].
  simpl. intros [He Hevs]%andb_prop. destruct e as [[u|]| | | | | | | | | |];
    try discriminate He; simpl; auto.
Qed.

Lemma profiles_markers t : profiles (List.filter is_marker t) = profiles t.
Proof.
  induction t as [|e t IH]; [reflexivity|].
  destruct e as [[u|]| | | | | | | | | |]; simpl; rewrite ?IH; auto.
Qed.

Lemma visits_markers t : visits (List.filter is_marker t) = visits t.
Proof.
  induction t as [|e t IH]; [reflexivity|].
  destruct e as [[u|]| | | | | | | | | |]; simpl; rewrite ?IH; auto.
Qed.

Lemma visits_enumerate_length user start posts :
  length (enumerate user start posts) = length posts.
Proof. revert start. induction posts as [|p ps IH]; intros start; simpl; auto. Qed.

Section Flow.
Context {W : Type} {HW : World W}.

(** A draw of [random()] lies in [0, 1). *)
Lemma unit_interval (k : N) :
  (0 <= Z.of_N (k mod 2 ^ 53)%N # (2 ^ 53)%positive)%Q ∧
  (Z.of_N (k mod 2 ^ 53)%N # (2 ^ 53)%positive < 1)%Q.
Proof.
  assert (Hlt : (k mod N.pos (2 ^ 53) < N.pos (2 ^ 53))%N)
    by (apply N.mod_upper_bound; discriminate).
  change (2 ^ 53)%N with (N.pos (2 ^ 53)).
  generalize dependent (k mod N.pos (2 ^ 53))%N. generalize (2 ^ 53)%positive.
  intros p m Hlt. unfold Qle, Qlt. cbn [Qnum Qden]. lia.
Qed.

(** [time.sleep] on a length that is not negative and below the limit. *)
Lemma time_sleep_returns (x : Q) (b : bot W) :
  (0 <= x)%Q → (x < sleep_limit)%Q →
  time_sleep x b
  = (Ret tt, Bot (username b) (password b) (config b) (driver b) (trace b ++ [Sleep x])).
Proof.
  intros H0 Hlim. unfold time_sleep.
  assert (Hpos : (0 < sleep_limit)%Q) by reflexivity.
  assert (H1 : Qle_bool (- sleep_limit) x = true) by (apply Qle_bool_iff; lra).
  assert (H2 : Qle_bool sleep_limit x = false).
  { destruct (Qle_bool sleep_limit x) eqn:H; [|reflexivity].
    apply Qle_bool_iff in H. exfalso. lra. }
  assert (H3 : Qle_bool 0 x = true) by (apply Qle_bool_iff; exact H0).
  rewrite H1, H2, H3. reflexivity.
Qed.

(** [time.sleep] either sleeps for its argument, which then is in range, or
    raises and leaves the session as it was. *)
Lemma time_sleep_outcome (x : Q) (b : bot W) :
  (time_sleep x b
   = (Ret tt, Bot (username b) (password b) (config b) (driver b) (trace b ++ [Sleep x])) ∧
   (0 <= x)%Q ∧ (x < sleep_limit)%Q) ∨
  (∃ e, time_sleep x b = (Raise e, b)).
Proof.
  unfold time_sleep.
  destruct (Qle_bool (- sleep_limit) x); cbn [andb]; [|right; eexists; reflexivity].
  destruct (Qle_bool sleep_limit x) eqn:H2; cbn [negb]; [right; eexists; reflexivity|].
  destruct (Qle_bool 0 x) eqn:H3; [|right; eexists; reflexivity].
  left. split; [reflexivity|]. split; [apply Qle_bool_iff, H3|].
  apply Qnot_le_lt. intros H. apply Qle_bool_iff in H. congruence.
Qed.

(** The pause between two profiles, [random_sleep(4, 7)], cannot fail. *)
Lemma random_sleep_4_7 (b : bot W) : (random_sleep (PInt 4) (PInt 7) b).1 = Ret tt.
Proof.
  destruct (unit_interval (getrandbits (driver b)).1) as [Hr Hr1].
  unfold random_sleep, py_or, random_uniform, random_random, draw.
  unfold mbind, M_bind, mret, M_ret, lift. cbn [truthy negb Z.eqb as_number].
  destruct (getrandbits (driver b)) as [k w]. cbn [fst] in Hr, Hr1.
  rewrite time_sleep_returns; [reflexivity| |].
  - revert Hr. generalize (Z.of_N (k mod 2 ^ 53)%N # (2 ^ 53)%positive).
    intros r Hr. change (inject_Z 4) with 4%Q. change (inject_Z 7) with 7%Q. lra.
  - apply Qle_lt_trans with (y := 7%Q); [|reflexivity].
    revert Hr1. generalize (Z.of_N (k mod 2 ^ 53)%N # (2 ^ 53)%positive).
    intros r Hr1. change (inject_Z 4) with 4%Q. change (inject_Z 7) with 7%Q. lra.
Qed.

End Flow.

Lemma profiles_enumerate user start posts :
  profiles (map (λ v, Visit v.1.1 v.1.2 v.2) (enumerate user start posts)) = [].
Proof. revert start. induction posts as [|p ps IH]; intros start; simpl; auto. Qed.

Lemma in_loop_enumerate user start posts :
  forallb in_loop (map (λ v, Visit v.1.1 v.1.2 v.2) (enumerate user start posts)) = true.
Proof. revert start. induction posts as [|p ps IH]; intros start; simpl; auto. Qed.

Lemma visits_enumerate user start posts :
  visits (map (λ v, Visit v.1.1 v.1.2 v.2) (enumerate user start posts))
  = enumerate user start posts.
Proof.
  revert start. induction posts as [|p ps IH]; intros start; [reflexivity|].
  simpl. rewrite IH. reflexivity.
Qed.

Section Marks.
Context {W : Type} {HW : World W}.

(** A [try] whose handler only logs always returns. *)
Lemma try_logged_returns (m : M W unit) (msg : exn → logmsg) (b : bot W) :
  (try_except m (λ e, logger_error (msg e)) b).1 = Ret tt.
Proof. unfold try_except. destruct (m b) as [[[]|e] b']; reflexivity. Qed.

Lemma visit_post_marks user i post (b : bot W) :
  (visit_post user i post b).1 = Ret tt ∧
  markers (visit_post user i post b).2 = markers b ++ [Visit user i post].
Proof.
  unfold visit_post. rewrite bind_unfold. simpl. split.
  - apply try_logged_returns.
  - rewrite (stable_post_interaction markers blind_markers). apply (markers_emit (Visit user i post)).
Qed.

Lemma loop_marks user posts : ∀ i (b : bot W),
  (for_enumerate i posts (visit_post user) b).1 = Ret tt ∧
  markers (for_enumerate i posts (visit_post user) b).2
  = markers b ++ marks (enumerate user i posts).
Proof.
  induction posts as [|p ps IH]; intros i b; simpl.
  - split; [reflexivity|]. symmetry. apply app_nil_r.
  - rewrite bind_unfold. destruct (visit_post_marks user i p b) as [Hr Hm].
    destruct (visit_post user i p b) as [r b1]. simpl in Hr, Hm. subst r.
    destruct (IH (S i) b1) as [Hr' Hm']. split; [exact Hr'|].
    rewrite Hm', Hm, <- app_assoc. reflexivity.
Qed.

Lemma interact_with_user_marks user (b : bot W) :
  (interact_with_user user b).1 = Ret tt ∧
  markers (interact_with_user user b).2
  = markers b ++ Enter (InteractWithUser user)
                 :: marks (enumerate user 0 (posts_taken user b)).
Proof.
  unfold interact_with_user. rewrite bind_unfold.
  change (emit (Enter (InteractWithUser user)) b) with (Ret tt, entered user b).
  cbv iota beta. split; [apply try_logged_returns|].
  assert (H0 : markers (entered user b) = markers b ++ [Enter (InteractWithUser user)])
    by apply (markers_emit (Enter (InteractWithUser user))).
  unfold posts_taken, try_except. rewrite bind_unfold.
  pose proof (stable_find_posts markers blind_markers user (entered user b)) as Hf.
  destruct (find_posts user (entered user b)) as [[posts|e] b1]; simpl in Hf;
    cbv iota beta; cbn [fst].
  - destruct (loop_marks user posts 0 b1) as [Hr Hm].
    destruct (for_enumerate 0 posts (visit_post user) b1) as [r b2]. simpl in Hr, Hm.
    subst r. simpl. rewrite Hm, Hf, H0, <- app_assoc. reflexivity.
  - unfold logger_error.
    rewrite (stable_emit_markers (Log Error (ProfileError user e)) eq_refl b1).
    rewrite Hf, H0. reflexivity.
Qed.

(** [cleanup] returns, whether [driver.quit()] does or not, and calls it. *)
Lemma cleanup_marks (b : bot W) :
  (cleanup b).1 = Ret tt ∧ markers (cleanup b).2 = markers b ++ [Enter Cleanup; Quit].
Proof.
  unfold cleanup. rewrite bind_unfold. simpl. split; [apply try_logged_returns|].
  unfold try_except. rewrite bind_unfold. unfold call. simpl.
  destruct (driver_quit (driver b)) as [[[]|e] w]; unfold markers; simpl;
    rewrite !List.filter_app; simpl; rewrite <- !app_assoc, ?app_nil_r; reflexivity.
Qed.

(** [login] always returns a boolean. *)
Lemma login_returns (b : bot W) : ∃ ok, (login b).1 = Ret ok.
Proof.
  unfold login, try_except.
  match goal with |- context [match ?m b with _ => _ end] => destruct (m b) as [[ok|e] b'] end.
  - exists ok. reflexivity.
  - exists false. destruct e; reflexivity.
Qed.

(** The loop of [run] over the target profiles. *)
Lemma profiles_loop (users : list string) : ∀ i (b : bot W),
  let loop := for_enumerate i users
                (λ _ user, interact_with_user user;; random_sleep (PInt 4) (PInt 7)) in
  (loop b).1 = Ret tt ∧
  ∃ evs, markers (loop b).2 = markers b ++ evs ∧
         profiles evs = users ∧ forallb in_loop evs = true.
Proof.
  induction users as [|u us IH]; intros i b; simpl.
  - split; [reflexivity|]. exists []. rewrite app_nil_r. auto.
  - rewrite !bind_unfold. destruct (interact_with_user_marks u b) as [Hr Hm].
    destruct (interact_with_user u b) as [r b1]. simpl in Hr, Hm. subst r.
    pose proof (random_sleep_4_7 b1) as Hs.
    pose proof (stable_random_sleep markers blind_markers (PInt 4) (PInt 7) b1) as Hq.
    destruct (random_sleep (PInt 4) (PInt 7) b1) as [r b2]. simpl in Hs, Hq. subst r.
    destruct (IH (S i) b2) as [Hr' (evs & Hm' & Hp & Hc)]. split; [exact Hr'|].
    exists (Enter (InteractWithUser u) :: marks (enumerate u 0 (posts_taken u b)) ++ evs).
    split; [|split].
    + rewrite Hm', Hq, Hm, <- app_assoc. reflexivity.
    + simpl. rewrite profiles_app. unfold marks. rewrite profiles_enumerate, Hp. reflexivity.
    + simpl. unfold marks. rewrite forallb_app, in_loop_enumerate, Hc. reflexivity.
Qed.

(** [run] returns, and what it leaves in the trace: the profiles visited
    when [login] succeeded, none otherwise, then one [cleanup]. *)
Lemma run_marks (target_users : targets) (b : bot W) :
  (run target_users b).1 = Ret tt ∧
  ∃ evs, markers (run target_users b).2 = markers b ++ evs ++ [Enter Cleanup; Quit] ∧
         forallb in_loop evs = true ∧
         match (login b).1 with
         | Ret true => profiles evs = users_of target_users
         | _ => evs = []
         end.
Proof.
  unfold run, try_finally, try_except. rewrite bind_unfold.
  destruct (login_returns b) as [ok Hok].
  pose proof (stable_login markers blind_markers b) as Hl.
  destruct (login b) as [r b1]. simpl in Hok, Hl. subst r. cbn [fst].
  destruct ok; cbn [negb]; cbv iota beta.
  - rewrite bind_unfold. unfold lift, for_each.
    destruct target_users as [l|s|]; simpl py_iter; cbv iota beta.
    1, 2: match goal with
          | |- context [for_enumerate 0 ?users ?body ?b'] =>
              destruct (profiles_loop users 0 b') as [Hr (evs & Hm & Hp & Hc)];
              destruct (for_enumerate 0 users body b') as [r b2]
          end;
          simpl in Hr, Hm; subst r;
          destruct (cleanup_marks b2) as [Hr' Hm'];
          destruct (cleanup b2) as [r b3]; simpl in Hr', Hm'; subst r; simpl;
          (split; [reflexivity|]); exists evs; rewrite Hm', Hm, Hl, <- app_assoc; auto.
    pose proof (stable_emit_markers (Log Error (ExecutionFailed TypeError)) eq_refl b1) as He.
    unfold logger_error.
    destruct (emit (Log Error (ExecutionFailed TypeError)) b1) as [r b2] eqn:Hemit.
    injection Hemit as <- _. simpl in He.
    destruct (cleanup_marks b2) as [Hr' Hm'].
    destruct (cleanup b2) as [r b3]. simpl in Hr', Hm'. subst r. simpl.
    split; [reflexivity|]. exists []. rewrite Hm', He, Hl. auto.
  - unfold mret, M_ret.
    destruct (cleanup_marks b1) as [Hr' Hm'].
    destruct (cleanup b1) as [r b3]. simpl in Hr', Hm'. subst r. simpl.
    split; [reflexivity|]. exists []. rewrite Hm', Hl. auto.
Qed.

End Marks.

Section Slice.
Context {W : Type} {HW : World W}.

Lemma of_self_config : of_self (config (W := W)).
Proof. intros u p c w t w' t'. reflexivity. Qed.

(** One statement of a body that went through, with the configuration it
    leaves behind. *)
Ltac step_keep H a b' Hc :=
  rewrite bind_unfold in H;
  match type of H with
  | context [match ?m ?b with _ => _ end] =>
      assert (Hc : config (m b).2 = config b)
        by (first [ apply stable_random_sleep, blind_of_self, of_self_config
                  | apply stable_emit_self, of_self_config
                  | apply stable_call_self, of_self_config
                  | apply stable_self_config ]);
      destruct (m b) as [[a|?] b']; simpl in H, Hc; [|discriminate H]
  end.

(** What [find_posts] returns is a slice, by the configured limit, of what
    the page showed. *)
Lemma find_posts_slice user (b : bot W) posts :
  (find_posts user b).1 = Ret posts →
  ∃ found limit, py_getitem (config b) "posts_per_user" = Ret limit ∧
                 py_slice_to found limit = Ret posts.
Proof.
  unfold find_posts, logger_info, wait_until_all. intros H.
  step_keep H u1 b1 H1. step_keep H u2 b2 H2. step_keep H u3 b3 H3.
  step_keep H found b4 H4.
  rewrite bind_unfold in H. unfold self_config in H.
  destruct (py_getitem (config b4) "posts_per_user") as [limit|e] eqn:Hlim; [|discriminate H].
  unfold lift in H. simpl in H.
  exists found, limit. split; [|exact H]. rewrite <- Hlim. congruence.
Qed.

Lemma slice_to_length {A} (l : list A) (n : Z) :
  (0 ≤ n)%Z → (Z.of_nat (length (slice_to l n)) ≤ n)%Z.
Proof.
  intros Hn. unfold slice_to. destruct (Z.ltb_spec n 0); [lia|].
  rewrite length_take. lia.
Qed.

Lemma slice_to_prefix {A} (l : list A) (n : Z) : slice_to l n `prefix_of` l.
Proof. unfold slice_to. destruct (n <? 0)%Z; apply prefix_take. Qed.

End Slice.

(** * The contracts of the specification *)

(** ** Configuration *)




(** C2: when the file at [config_path] is missing, [load_config] returns
    the default configuration: wait_time min 2 and max 4, posts_per_user 3,
    max_likes_per_session 50, the four canned comments, comment_probability
    0.2, and nothing else. *)
Theorem load_config_missing_file (fs : string → file) (config_path : string) :
  fs config_path = Absent →
  ∃ d, load_config fs config_path = Ret (PDict d) ∧
       d !! "wait_time" = Some (PDict {[ "min" := PInt 2; "max" := PInt 4 ]}) ∧
       d !! "posts_per_user" = Some (PInt 3) ∧
       d !! "max_likes_per_session" = Some (PInt 50) ∧
       d !! "random_comments"
         = Some (PList [ PStr "Great post! 👍"; PStr "Amazing! 🔥";
                         PStr "Love this! ❤️"; PStr "Awesome content! ✨" ]) ∧
       d !! "comment_probability" = Some (PFloat (2 # 10)) ∧
       size d = 5%nat.
Proof.
  intros Hfile. exists default_config. unfold load_config, open_. rewrite Hfile.
  repeat split; vm_compute; reflexivity.
Qed.

Lemma load_config_missing_file_witness :
  ∃ d, load_config (λ _, Absent) "config.json" = Ret (PDict d) ∧
       d !! "wait_time" = Some (PDict {[ "min" := PInt 2; "max" := PInt 4 ]}) ∧
       d !! "posts_per_user" = Some (PInt 3) ∧
       d !! "max_likes_per_session" = Some (PInt 50) ∧
       d !! "random_comments"
         = Some (PList [ PStr "Great post! 👍"; PStr "Amazing! 🔥";
                         PStr "Love this! ❤️"; PStr "Awesome content! ✨" ]) ∧
       d !! "comment_probability" = Some (PFloat (2 # 10)) ∧
       size d = 5%nat.
Proof. apply (load_config_missing_file (λ _, Absent) "config.json"). reflexivity. Defined.

(** ** The argument of [run] *)

(** C9: [run] on a single name behaves exactly like [run] on the
    one-element list holding that name. *)
Theorem run_single_name {W : Type} {HW : World W} (s : string) (b : bot W) :
  run (Name s) b = run (Names [s]) b.
Proof. reflexivity. Qed.

(** ** The fallback of [random_sleep] *)



(** ** The limit on posts per profile *)

(** C3, as stated, fails when the configured limit is negative: with
    [posts_per_user] at -1 the slice drops the last post only, and two of
    the three posts found are visited. *)
Lemma negative_limit_visits_two :
  py_getitem negative_limit "posts_per_user" = Ret (PInt (-1)) ∧
  visits (trace (interact_with_user (HW := Scripted.scripted Scripted.plain) "chairo_store101"
                   (Scripted.session Scripted.plain negative_limit)).2)
    = [("chairo_store101", 0%nat, 10%nat); ("chairo_store101", 1%nat, 11%nat)] ∧
  ¬ (Z.of_nat (length (visits (trace
        (interact_with_user (HW := Scripted.scripted Scripted.plain) "chairo_store101"
           (Scripted.session Scripted.plain negative_limit)).2))) ≤ -1)%Z.
Proof.
  split; [reflexivity|]. split; [vm_compute; reflexivity|].
  vm_compute. intros Hle. apply Hle. reflexivity.
Qed.

(** C3, amended: for every target profile and every list of posts found on
    its page, when [config['posts_per_user']] is a non-negative integer
    [interact_with_user] visits at most that many posts of the profile. *)
Theorem visits_within_limit {W : Type} {HW : World W} (user : string) (b : bot W) (n : Z) :
  py_getitem (config b) "posts_per_user" = Ret (PInt n) →
  (0 ≤ n)%Z →
  ∃ new, visits (trace (interact_with_user user b).2) = visits (trace b) ++ new ∧
         (Z.of_nat (length new) ≤ n)%Z.
Proof.
  intros Hlim Hn. exists (enumerate user 0 (posts_taken user b)). split.
  - destruct (interact_with_user_marks user b) as [_ Hm]. unfold markers in Hm.
    rewrite <- (visits_markers (trace (interact_with_user user b).2)), Hm.
    rewrite visits_app, visits_markers. simpl. unfold marks.
    rewrite visits_enumerate. reflexivity.
  - rewrite visits_enumerate_length. unfold posts_taken.
    destruct (find_posts user (entered user b)).1 as [posts|e] eqn:Hf; [|simpl; lia].
    apply find_posts_slice in Hf as (found & limit & Hlim' & Hs).
    change (config (entered user b)) with (config b) in Hlim'.
    rewrite Hlim in Hlim'. injection Hlim' as <-. simpl in Hs. injection Hs as <-.
    apply slice_to_length, Hn.
Qed.

Lemma visits_within_limit_witness :
  ∃ new,
    visits (trace (interact_with_user (HW := Scripted.scripted Scripted.plain) "chairo_store101"
                     (Scripted.session Scripted.plain
                        (PDict (<[ "posts_per_user" := PInt 2 ]> default_config)))).2)
      = [] ++ new ∧
    (Z.of_nat (length new) ≤ 2)%Z.
Proof.
  apply (visits_within_limit (HW := Scripted.scripted Scripted.plain) "chairo_store101"
           (Scripted.session Scripted.plain
              (PDict (<[ "posts_per_user" := PInt 2 ]> default_config))) 2);
    [reflexivity | lia].
Defined.

(** ** Cleanup and failures *)

(** C4: every call of [run] returns, enters [cleanup] exactly once and
    calls [driver.quit()] exactly once, whether [login] fails, the loop over
    profiles raises, or the run completes; nothing follows the cleanup. *)
Theorem cleanup_exactly_once {W : Type} {HW : World W} (target_users : targets) (b : bot W) :
  (run target_users b).1 = Ret tt ∧
  cleanup_calls (trace (run target_users b).2) = (cleanup_calls (trace b) + 1)%nat ∧
  quit_calls (trace (run target_users b).2) = (quit_calls (trace b) + 1)%nat ∧
  ∃ before, List.filter is_marker (trace (run target_users b).2)
            = before ++ [Enter Cleanup; Quit].
Proof.
  destruct (run_marks target_users b) as [Hr (evs & Hm & Hc & _)]. unfold markers in Hm.
  apply in_loop_calls in Hc as [Hc Hq].
  split; [exact Hr|]. split; [|split].
  - rewrite <- cleanup_calls_markers, Hm, !cleanup_calls_app, cleanup_calls_markers, Hc.
    reflexivity.
  - rewrite <- quit_calls_markers, Hm, !quit_calls_app, quit_calls_markers, Hq.
    reflexivity.
  - exists (List.filter is_marker (trace b) ++ evs). rewrite Hm, app_assoc. reflexivity.
Qed.

(** The handler of [run] at work: an argument that cannot be iterated makes
    the [for] raise after the login; the failure is logged and the session
    is cleaned up. *)
Example run_not_iterable :
  List.filter (λ e, match e with Log Error _ | Enter _ | Quit => true | _ => false end)
    (trace (run (HW := Scripted.scripted Scripted.plain) NotIterable
              (Scripted.session Scripted.plain (PDict default_config))).2)
  = [Log Error (ExecutionFailed TypeError); Enter Cleanup; Quit].
Proof. vm_compute. reflexivity. Qed.

(** C5: when [login] returns false, [run] calls [interact_with_user] on no
    profile and visits no post, and still enters [cleanup], once, before it
    returns. *)
Theorem failed_login_visits_nothing {W : Type} {HW : World W}
    (target_users : targets) (b : bot W) :
  (login b).1 = Ret false →
  (run target_users b).1 = Ret tt ∧
  profiles (trace (run target_users b).2) = profiles (trace b) ∧
  visits (trace (run target_users b).2) = visits (trace b) ∧
  cleanup_calls (trace (run target_users b).2) = (cleanup_calls (trace b) + 1)%nat ∧
  quit_calls (trace (run target_users b).2) = (quit_calls (trace b) + 1)%nat.
Proof.
  intros Hlogin.
  destruct (run_marks target_users b) as [Hr (evs & Hm & Hc & Hp)]. unfold markers in Hm.
  rewrite Hlogin in Hp. subst evs. simpl in Hm. split; [exact Hr|].
  rewrite <- profiles_markers, <- visits_markers, <- cleanup_calls_markers,
    <- quit_calls_markers, Hm.
  rewrite profiles_app, visits_app, cleanup_calls_app, quit_calls_app.
  rewrite profiles_markers, visits_markers, cleanup_calls_markers, quit_calls_markers.
  simpl. rewrite !app_nil_r. auto.
Qed.

Lemma failed_login_visits_nothing_witness :
  (login (HW := Scripted.scripted login_fails)
     (Scripted.session login_fails (PDict default_config))).1 = Ret false ∧
  profiles (trace (run (HW := Scripted.scripted login_fails)
                     (Names ["chairo_store101"; "sandanu_hewage"])
                     (Scripted.session login_fails (PDict default_config))).2) = [] ∧
  cleanup_calls (trace (run (HW := Scripted.scripted login_fails)
                          (Names ["chairo_store101"; "sandanu_hewage"])
                          (Scripted.session login_fails (PDict default_config))).2) = 1%nat.
Proof.
  split; [reflexivity|].
  destruct (failed_login_visits_nothing (HW := Scripted.scripted login_fails)
              (Names ["chairo_store101"; "sandanu_hewage"])
              (Scripted.session login_fails (PDict default_config)) eq_refl)
    as (_ & Hp & _ & Hc & _).
  split; [exact Hp|exact Hc].
Defined.

(** ** The like cap *)

(** C7: two sessions whose configurations differ in
    [max_likes_per_session] only behave alike: [run] returns the same
    result, leaves the same trace of interactions (posts visited, likes,
    comments, pauses, log records) and the same browser state.  The cap is
    never read. *)
Theorem like_cap_not_enforced {W : Type} {HW : World W} (target_users : targets)
    (user pass : string) (d1 d2 : gmap string pyval) (w : W) (t : list event) :
  delete "max_likes_per_session" d1 = delete "max_likes_per_session" d2 →
  (run target_users (Bot user pass (PDict d1) w t)).1
    = (run target_users (Bot user pass (PDict d2) w t)).1 ∧
  trace (run target_users (Bot user pass (PDict d1) w t)).2
    = trace (run target_users (Bot user pass (PDict d2) w t)).2 ∧
  driver (run target_users (Bot user pass (PDict d1) w t)).2
    = driver (run target_users (Bot user pass (PDict d2) w t)).2.
Proof.
  intros Hd.
  assert (Hs : sim (Bot user pass (PDict d1) w t) (Bot user pass (PDict d2) w t)).
  { unfold sim. simpl. repeat (split; [reflexivity|]).
    intros k Hk. simpl.
    rewrite <- (lookup_delete_ne d1 like_cap k), <- (lookup_delete_ne d2 like_cap k) by congruence.
    unfold like_cap. rewrite Hd. reflexivity. }
  destruct (respects_run target_users _ _ Hs) as [Hr (_ & _ & Hw & Ht & _)].
  auto.
Qed.

Lemma like_cap_not_enforced_witness :
  trace (run (HW := Scripted.scripted flaky) (Names ["chairo_store101"; "sandanu_hewage"])
           (Scripted.session flaky (PDict default_config))).2
  = trace (run (HW := Scripted.scripted flaky) (Names ["chairo_store101"; "sandanu_hewage"])
             (Scripted.session flaky
                (PDict (<[ "max_likes_per_session" := PInt 1 ]> default_config)))).2.
Proof.
  apply (like_cap_not_enforced (HW := Scripted.scripted flaky)
           (Names ["chairo_store101"; "sandanu_hewage"]) "sandanu_hewage" ""
           default_config (<[ "max_likes_per_session" := PInt 1 ]> default_config)
           (Scripted.start flaky) []).
  vm_compute. reflexivity.
Defined.

(** ** The configuration is read-only *)

Lemma perform_keeps_config {W : Type} {HW : World W} (b : bot W) (o : operation) :
  config (perform b o) = config b.
Proof.
  destruct o; simpl.
  - apply stable_random_sleep, blind_of_self, of_self_config.
  - apply stable_login, blind_of_self, of_self_config.
  - apply self_interact_with_user, of_self_config.
  - apply stable_leave_comment, blind_of_self, of_self_config.
  - apply self_cleanup, of_self_config.
  - apply self_run, of_self_config.
Qed.

(** C8: the configuration the constructor loaded is never mutated: after
    any sequence of operations of the session object ([random_sleep],
    [login], [interact_with_user], [leave_comment], [cleanup], [run]),
    [self.config] is still the value [load_config] returned. *)
Theorem config_never_mutated {W : Type} {HW : World W} (h : host W)
    (user pass config_path : string) (b : bot W) (ops : list operation) :
  init h user pass config_path = Ret b →
  load_config (files h) config_path = Ret (config b) ∧
  config (foldl perform b ops) = config b.
Proof.
  intros Hinit. split.
  - unfold init in Hinit.
    destruct (load_config (files h) config_path) as [cfg|e]; [|discriminate Hinit].
    destruct (log_handlers h) as [[]|e]; [|discriminate Hinit].
    destruct (chrome h) as [w|e]; [|discriminate Hinit].
    injection Hinit as <-. reflexivity.
  - clear Hinit. revert b. induction ops as [|o ops IH]; intros b; [reflexivity|].
    simpl. rewrite IH. apply perform_keeps_config.
Qed.

Lemma config_never_mutated_witness :
  config (foldl (perform (HW := Scripted.scripted flaky))
            (Scripted.session flaky (PDict default_config))
            [OpLogin; OpRun (Name "chairo_store101"); OpRandomSleep (PInt 0) PNone;
             OpLeaveComment (PStr "Amazing! 🔥"); OpCleanup])
  = PDict default_config.
Proof.
  apply (config_never_mutated (HW := Scripted.scripted flaky)
           (Host (λ _, Absent) (Ret tt) (Ret (Scripted.start flaky)))
           "sandanu_hewage" "" "config.json"
           (Scripted.session flaky (PDict default_config))).
  reflexivity.
Defined.


(** * Further properties of the code *)

(** ** Loading the configuration *)

(** X1: only a missing file is forgiven: a file that cannot be read, or whose
    text [json.load] rejects, makes [load_config] raise that error, and the
    constructor with it, so that no session object exists. *)
Theorem load_config_errors_propagate {W : Type} (h : host W)
    (user pass config_path : string) (e : exn) :
  e ≠ FileNotFoundError →
  files h config_path = Content (Raise e) ∨ (files h config_path = Denied ∧ e = OSError) →
  load_config (files h) config_path = Raise e ∧
  init h user pass config_path = Raise e.
Proof.
  intros He Hfile.
  assert (Hload : load_config (files h) config_path = Raise e).
  { unfold load_config, open_.
    destruct Hfile as [-> | [-> ->]]; [|reflexivity].
    destruct e; solve [reflexivity | contradiction He; reflexivity]. }
  split; [exact Hload|]. unfold init. rewrite Hload. reflexivity.
Qed.

Lemma load_config_errors_propagate_witness :
  init (Host (λ _, Content (Raise JSONDecodeError)) (Ret tt) (Ret (Scripted.start Scripted.plain)))
    "sandanu_hewage" "" "config.json" = Raise JSONDecodeError.
Proof.
  apply (load_config_errors_propagate
           (Host (λ _, Content (Raise JSONDecodeError)) (Ret tt)
              (Ret (Scripted.start Scripted.plain)))
           "sandanu_hewage" "" "config.json" JSONDecodeError);
    [discriminate | left; reflexivity].
Defined.

(** ** Pauses *)

Section Pauses.
Context {W : Type} {HW : World W}.

(** What [random_sleep] does, read off the two effective bounds. *)
Lemma random_sleep_unfold (min_time max_time : pyval) (b : bot W) :
  random_sleep min_time max_time b =
  match effective_bound min_time "min" (config b) with
  | Raise e => (Raise e, b)
  | Ret lo =>
      match effective_bound max_time "max" (config b) with
      | Raise e => (Raise e, b)
      | Ret hi => (x ← random_uniform lo hi; time_sleep x) b
      end
  end.
Proof.
  unfold random_sleep, effective_bound, py_or.
  destruct (truthy min_time), (truthy max_time);
    unfold mbind, M_bind, mret, M_ret, self_config, lift; cbv beta iota;
    try reflexivity;
    destruct (py_getitem (config b) "wait_time") as [wt|e] eqn:Hwt;
    cbv beta iota; rewrite ?Hwt; cbv beta iota; try reflexivity;
    repeat (match goal with
            | |- context [match py_getitem wt ?k with _ => _ end] =>
                destruct (py_getitem wt k)
            end; cbv beta iota; rewrite ?Hwt; cbv beta iota);
    reflexivity.
Qed.

(** [random.uniform] on two numbers: one draw, and the value it gives. *)
Lemma random_uniform_numbers (lo hi : pyval) (x y : Q) (b : bot W) :
  as_number lo = Ret x → as_number hi = Ret y →
  random_uniform lo hi b =
  (Ret (x + (y - x) *
          (Z.of_N ((getrandbits (driver b)).1 mod 2 ^ 53)%N # (2 ^ 53)%positive))%Q,
   Bot (username b) (password b) (config b) (getrandbits (driver b)).2 (trace b)).
Proof.
  intros Hx Hy. unfold random_uniform, random_random, draw.
  unfold mbind, M_bind, mret, M_ret, lift. rewrite Hx, Hy.
  destruct (getrandbits (driver b)) as [k w]. reflexivity.
Qed.

Lemma random_uniform_not_numbers (lo hi : pyval) (b : bot W) :
  (∃ e, as_number lo = Raise e) ∨ (∃ e, as_number hi = Raise e) →
  ∃ e, random_uniform lo hi b = (Raise e, b).
Proof.
  unfold random_uniform, mbind, M_bind, lift.
  intros [[e He]|[e He]]; rewrite He.
  - exists e. reflexivity.
  - destruct (as_number lo) as [x|e']; [exists e|exists e']; reflexivity.
Qed.

Lemma random_sleep_lookup_fails (min_time max_time : pyval) (e : exn) (b : bot W) :
  truthy min_time = false ∨ truthy max_time = false →
  py_getitem (config b) "wait_time" = Raise e →
  random_sleep min_time max_time b = (Raise e, b).
Proof.
  intros Hfalsy Hwt. rewrite random_sleep_unfold. unfold effective_bound. rewrite Hwt.
  destruct (truthy min_time); [|reflexivity].
  destruct Hfalsy as [Hf|Hf]; [discriminate Hf|]. rewrite Hf. reflexivity.
Qed.

End Pauses.

(** X2: a pause lies within its range: when the two effective bounds are
    numbers [x <= y] with [x] not negative and [y] no more than half the
    limit of [time.sleep] (so that no rounding can reach it), [random_sleep]
    returns after one draw and one [time.sleep] of some [d] with
    [x <= d <= y], and touches nothing but the generator and the trace. *)
Theorem random_sleep_within_range {W : Type} {HW : World W}
    (min_time max_time lo hi : pyval) (x y : Q) (b : bot W) :
  effective_bound min_time "min" (config b) = Ret lo →
  effective_bound max_time "max" (config b) = Ret hi →
  as_number lo = Ret x →
  as_number hi = Ret y →
  (0 <= x)%Q → (x <= y)%Q → (2 * y <= sleep_limit)%Q →
  ∃ d, random_sleep min_time max_time b
       = (Ret tt, Bot (username b) (password b) (config b)
                    (getrandbits (driver b)).2 (trace b ++ [Sleep d])) ∧
       (x <= d)%Q ∧ (d <= y)%Q.
Proof.
  intros Hlo Hhi Hx Hy H0 Hxy Hlim.
  rewrite random_sleep_unfold, Hlo, Hhi, bind_unfold.
  rewrite (random_uniform_numbers lo hi x y b Hx Hy). cbv iota beta.
  destruct (unit_interval (getrandbits (driver b)).1) as [Hr0 Hr1].
  set (r := (Z.of_N ((getrandbits (driver b)).1 mod 2 ^ 53)%N # (2 ^ 53)%positive)) in *.
  exists (x + (y - x) * r)%Q.
  assert (Hd : (0 <= x + (y - x) * r)%Q) by nra.
  assert (Hup : (x + (y - x) * r <= y)%Q) by nra.
  assert (Hpos : (0 < sleep_limit)%Q) by reflexivity.
  rewrite time_sleep_returns; [|exact Hd|lra]. simpl.
  split; [reflexivity|]. split; [nra|exact Hup].
Qed.

Lemma random_sleep_within_range_witness :
  ∃ d, random_sleep (HW := Scripted.scripted Scripted.plain) PNone PNone
         (Scripted.session Scripted.plain (PDict default_config))
       = (Ret tt, Bot "sandanu_hewage" "" (PDict default_config)
                    (getrandbits (World := Scripted.scripted Scripted.plain)
                       (Scripted.start Scripted.plain)).2 [Sleep d]) ∧
       (inject_Z 2 <= d)%Q ∧ (d <= inject_Z 4)%Q.
Proof.
  apply (random_sleep_within_range (HW := Scripted.scripted Scripted.plain)
           PNone PNone (PInt 2) (PInt 4) (inject_Z 2) (inject_Z 4)
           (Scripted.session Scripted.plain (PDict default_config)));
    solve [reflexivity | discriminate].
Defined.

(** X3: [random_sleep] returns only after it slept, once and for a time that is
    not negative; when it raises, no pause was taken and the trace is as it
    was. *)
Theorem random_sleep_sleeps_or_fails {W : Type} {HW : World W}
    (min_time max_time : pyval) (b : bot W) :
  match (random_sleep min_time max_time b).1 with
  | Ret _ => ∃ d, trace (random_sleep min_time max_time b).2 = trace b ++ [Sleep d] ∧
                  (0 <= d)%Q
  | Raise _ => trace (random_sleep min_time max_time b).2 = trace b
  end.
Proof.
  rewrite random_sleep_unfold.
  destruct (effective_bound min_time "min" (config b)) as [lo|e]; [|reflexivity].
  destruct (effective_bound max_time "max" (config b)) as [hi|e]; [|reflexivity].
  destruct (as_number lo) as [x|e] eqn:Hx.
  - destruct (as_number hi) as [y|e] eqn:Hy.
    + rewrite bind_unfold, (random_uniform_numbers lo hi x y b Hx Hy). cbv iota beta.
      match goal with |- context [time_sleep ?d ?b'] =>
        destruct (time_sleep_outcome d b') as [(Heq & Hd & _)|[e Heq]]; rewrite Heq end;
        simpl.
      * eexists. split; [reflexivity|exact Hd].
      * reflexivity.
    + destruct (random_uniform_not_numbers lo hi b) as [e' He'];
        [right; exists e; exact Hy|].
      rewrite bind_unfold, He'. reflexivity.
  - destruct (random_uniform_not_numbers lo hi b) as [e' He'];
      [left; exists e; exact Hx|].
    rewrite bind_unfold, He'. reflexivity.
Qed.

(** X4: a default that is needed and missing: when an argument of
    [random_sleep] is falsy and the configuration has no [wait_time] (or is
    not an object at all), [random_sleep] raises the error of the lookup
    before any draw or pause: the session is exactly as it was. *)
Theorem random_sleep_missing_default {W : Type} {HW : World W}
    (min_time max_time : pyval) (e : exn) (b : bot W) :
  truthy min_time = false ∨ truthy max_time = false →
  py_getitem (config b) "wait_time" = Raise e →
  random_sleep min_time max_time b = (Raise e, b).
Proof. apply random_sleep_lookup_fails. Qed.

Lemma random_sleep_missing_default_witness :
  random_sleep (HW := Scripted.scripted Scripted.plain) PNone (PInt 7)
    (Scripted.session Scripted.plain (PDict {[ "posts_per_user" := PInt 5 ]}))
  = (Raise KeyError,
     Scripted.session Scripted.plain (PDict {[ "posts_per_user" := PInt 5 ]})).
Proof.
  apply (random_sleep_missing_default (HW := Scripted.scripted Scripted.plain)
           PNone (PInt 7) KeyError
           (Scripted.session Scripted.plain (PDict {[ "posts_per_user" := PInt 5 ]})));
    [left; reflexivity | reflexivity].
Defined.

(** ** A configuration without [wait_time] *)

(** X5: with a configuration that has no [wait_time] (for one, the object of a
    file that sets a single other field), [interact_with_user] requests the
    profile page and fails at the first pause: it logs one error and visits
    no post.  The error is the lookup's, unless the page request itself
    raised. *)
Theorem interact_without_wait_time {W : Type} {HW : World W}
    (user : string) (e : exn) (b : bot W) :
  py_getitem (config b) "wait_time" = Raise e →
  trace (interact_with_user user b).2
  = trace b ++ [ Enter (InteractWithUser user); Log Info (Navigating user);
                 Get (profile_url user);
                 Log Error (ProfileError user
                              match (driver_get (profile_url user) (driver b)).1 with
                              | Ret _ => e
                              | Raise e' => e'
                              end) ] ∧
  visits (trace (interact_with_user user b).2) = visits (trace b).
Proof.
  intros Hwt.
  assert (Ht : trace (interact_with_user user b).2
               = trace b ++ [ Enter (InteractWithUser user); Log Info (Navigating user);
                              Get (profile_url user);
                              Log Error (ProfileError user
                                match (driver_get (profile_url user) (driver b)).1 with
                                | Ret _ => e
                                | Raise e' => e'
                                end) ]).
  { unfold interact_with_user, find_posts, try_except, logger_info, logger_error, emit, call.
    fold (profile_url user). rewrite !bind_unfold. cbn [driver].
    destruct (driver_get (profile_url user) (driver b)) as [[[]|e'] w]; cbn [fst].
    - rewrite bind_unfold.
      rewrite (random_sleep_lookup_fails PNone PNone e); [|left; reflexivity|exact Hwt].
      simpl. rewrite <- !app_assoc. reflexivity.
    - simpl. rewrite <- !app_assoc. reflexivity. }
  split; [exact Ht|]. rewrite Ht, visits_app. simpl. apply app_nil_r.
Qed.

Lemma interact_without_wait_time_witness :
  trace (interact_with_user (HW := Scripted.scripted Scripted.plain) "chairo_store101"
           (Scripted.session Scripted.plain (PDict {[ "posts_per_user" := PInt 5 ]}))).2
  = [ Enter (InteractWithUser "chairo_store101"); Log Info (Navigating "chairo_store101");
      Get "https://www.instagram.com/chairo_store101/";
      Log Error (ProfileError "chairo_store101" KeyError) ].
Proof.
  apply (interact_without_wait_time (HW := Scripted.scripted Scripted.plain)
           "chairo_store101" KeyError
           (Scripted.session Scripted.plain (PDict {[ "posts_per_user" := PInt 5 ]}))).
  reflexivity.
Defined.

(** ** The posts that are visited *)

Section Listing.
Context {W : Type} {HW : World W}.

Lemma stable_listing {X} (g : bot W → X) (user : string) : of_self g → stable g (listing user).
Proof.
  intros Hg. unfold listing, logger_info, wait_until_all.
  stable_walk ltac:(first [ apply stable_random_sleep, blind_of_self, Hg
                          | apply stable_emit_self, Hg
                          | apply stable_call_self, Hg ]).
Qed.

(** [find_posts] is the listing cut by the configured limit. *)
Lemma find_posts_listing (user : string) (b : bot W) :
  find_posts user b =
  match listing user b with
  | (Ret found, b1) =>
      (match py_getitem (config b) "posts_per_user" with
       | Ret limit => py_slice_to found limit
       | Raise e => Raise e
       end, b1)
  | (Raise e, b1) => (Raise e, b1)
  end.
Proof.
  pose proof (stable_listing config user of_self_config b) as Hc.
  unfold find_posts, listing in *. fold (profile_url user) in *.
  rewrite !bind_unfold in *.
  destruct (logger_info (Navigating user) b) as [[[]|e] b1]; [|reflexivity].
  rewrite !bind_unfold in *.
  destruct (call (Get (profile_url user)) (driver_get (profile_url user)) b1)
    as [[[]|e] b2]; [|reflexivity].
  rewrite !bind_unfold in *.
  destruct (random_sleep PNone PNone b2) as [[[]|e] b3]; [|reflexivity].
  rewrite !bind_unfold in *.
  destruct (wait_until_all ByCssSelector "article a" b3) as [[found|e] b4]; [|reflexivity].
  simpl in Hc. rewrite ?bind_unfold. unfold self_config, lift. rewrite Hc.
  destruct (py_getitem (config b) "posts_per_user"); reflexivity.
Qed.

End Listing.

(** X6: the posts [interact_with_user] visits are the first [posts_per_user]
    posts the page lists, in the page's order and numbered from 0: all of
    them when the limit is null, the first [n] for a limit [n >= 0], all but
    the last [-n] for a negative one, and none when the limit is not an
    integer (a float, a string). *)
Theorem visited_posts_are_a_slice {W : Type} {HW : World W}
    (user : string) (b b1 : bot W) (found : list elem) (limit : pyval) :
  listing user (entered user b) = (Ret found, b1) →
  py_getitem (config b) "posts_per_user" = Ret limit →
  ∃ posts,
    visits (trace (interact_with_user user b).2) = visits (trace b) ++ enumerate user 0 posts ∧
    posts `prefix_of` found ∧
    match limit with
    | PNone => posts = found
    | PInt n => if (0 <=? n)%Z then posts = take (Z.to_nat n) found
                else posts = take (length found - Z.to_nat (- n)) found
    | PBool flag => posts = take (if flag then 1 else 0) found
    | _ => posts = []
    end.
Proof.
  intros Hlist Hlim.
  exists (posts_taken user b). split; [|].
  - destruct (interact_with_user_marks user b) as [_ Hm]. unfold markers in Hm.
    rewrite <- (visits_markers (trace (interact_with_user user b).2)), Hm.
    rewrite visits_app, visits_markers. simpl. unfold marks.
    rewrite visits_enumerate. reflexivity.
  - unfold posts_taken. rewrite find_posts_listing, Hlist.
    change (config (entered user b)) with (config b). rewrite Hlim. cbn [fst].
    destruct limit as [|flag|n|q|s|l|d]; simpl;
      try (split; [apply prefix_nil|reflexivity]).
    + split; [reflexivity|reflexivity].
    + split; [apply slice_to_prefix|]. unfold slice_to. destruct flag; reflexivity.
    + split; [apply slice_to_prefix|]. unfold slice_to.
      destruct (Z.ltb_spec n 0), (Z.leb_spec 0 n); try lia; f_equal; lia.
Qed.

Lemma visited_posts_are_a_slice_witness :
  ∃ posts,
    visits (trace (interact_with_user (HW := Scripted.scripted Scripted.plain) "chairo_store101"
                     (Scripted.session Scripted.plain negative_limit)).2)
      = [] ++ enumerate "chairo_store101" 0 posts ∧
    posts `prefix_of` [10; 11; 12]%nat ∧
    posts = take (3 - 1) [10; 11; 12]%nat.
Proof.
  apply (visited_posts_are_a_slice (HW := Scripted.scripted Scripted.plain) "chairo_store101"
           (Scripted.session Scripted.plain negative_limit)
           (listing (HW := Scripted.scripted Scripted.plain) "chairo_store101"
              (entered "chairo_store101"
                 (Scripted.session Scripted.plain negative_limit))).2
           [10; 11; 12]%nat (PInt (-1)));
    reflexivity.
Defined.

(** ** Likes and comments *)

Lemma weight_app (w : event → Z) (t1 t2 : list event) :
  weight w (t1 ++ t2) = (weight w t1 + weight w t2)%Z.
Proof. unfold weight. induction t1 as [|e t1 IH]; simpl; [reflexivity|]. rewrite IH. lia. Qed.

Lemma weight_credit (p q : event → bool) (t : list event) :
  weight (credit p q) t
  = (Z.of_nat (length (List.filter p t)) - Z.of_nat (length (List.filter q t)))%Z.
Proof.
  unfold weight, credit. induction t as [|e t IH]; simpl; [reflexivity|].
  rewrite IH. destruct (p e), (q e); simpl length; lia.
Qed.

Lemma visits_length (t : list event) : length (visits t) = length (List.filter is_visit t).
Proof.
  induction t as [|e t IH]; [reflexivity|].
  destruct e; simpl; rewrite ?IH; reflexivity.
Qed.

Section Gains.
Context {W : Type} {HW : World W} (w : event → Z).

Lemma gains_weaken {A} (k k' : Z) (m : M W A) : (k' ≤ k)%Z → gains w k m → gains w k' m.
Proof. intros Hk Hm b. specialize (Hm b). lia. Qed.

Lemma gains_ret {A} (a : A) : gains w 0 (mret a : M W A).
Proof. intros b. simpl. lia. Qed.

Lemma gains_throw {A} (e : exn) : gains w 0 (mthrow e : M W A).
Proof. intros b. simpl. lia. Qed.

Lemma gains_lift {A} (r : outcome A) : gains w 0 (lift r : M W A).
Proof. intros b. simpl. lia. Qed.

Lemma gains_self_config (k : string) : gains w 0 (self_config k : M W pyval).
Proof. intros b. simpl. lia. Qed.

Lemma gains_self_username : gains w 0 (self_username : M W string).
Proof. intros b. simpl. lia. Qed.

Lemma gains_self_password : gains w 0 (self_password : M W string).
Proof. intros b. simpl. lia. Qed.

Lemma gains_draw : gains w 0 draw.
Proof. intros b. unfold draw. destruct (getrandbits (driver b)). simpl. lia. Qed.

Lemma gains_emit (e : event) : gains w (w e) (emit e : M W unit).
Proof. intros b. simpl. rewrite weight_app. simpl. lia. Qed.

Lemma gains_call {A} (e : event) (f : W → outcome A * W) : gains w (w e) (call e f).
Proof.
  intros b. unfold call. destruct (f (driver b)). simpl. rewrite weight_app. simpl. lia.
Qed.

Lemma gains_emit_is (e : event) (k : Z) : w e = k → gains w k (emit e : M W unit).
Proof. intros <-. apply gains_emit. Qed.

Lemma gains_call_is {A} (e : event) (f : W → outcome A * W) (k : Z) :
  w e = k → gains w k (call e f).
Proof. intros <-. apply gains_call. Qed.

Lemma gains_bind {A B} (k1 k2 : Z) (m : M W A) (f : A → M W B) :
  gains w k1 m → (∀ a, gains w k2 (f a)) → gains w (Z.min k1 (k1 + k2)) (m ≫= f).
Proof.
  intros Hm Hf b. rewrite bind_unfold. specialize (Hm b).
  destruct (m b) as [[a|e] b1]; simpl in *; [specialize (Hf a b1)|]; lia.
Qed.

Lemma gains_try {A} (k1 k2 : Z) (m : M W A) (h : exn → M W A) :
  gains w k1 m → (∀ e, gains w k2 (h e)) → gains w (Z.min k1 (k1 + k2)) (try_except m h).
Proof.
  intros Hm Hh b. unfold try_except. specialize (Hm b).
  destruct (m b) as [[a|e] b1]; simpl in *; [|specialize (Hh e b1)]; lia.
Qed.

Lemma gains_finally {A} (k1 k2 : Z) (m : M W A) (f : M W unit) :
  gains w k1 m → gains w k2 f → gains w (k1 + k2) (try_finally m f).
Proof.
  intros Hm Hf b. unfold try_finally. specialize (Hm b).
  destruct (m b) as [r b1]. specialize (Hf b1).
  destruct (f b1) as [[[]|e] b2]; simpl in *; lia.
Qed.

Lemma gains_if {A} (k1 k2 : Z) (c : bool) (m1 m2 : M W A) :
  gains w k1 m1 → gains w k2 m2 → gains w (Z.min k1 k2) (if c then m1 else m2).
Proof. intros H1 H2 b. destruct c; [specialize (H1 b)|specialize (H2 b)]; lia. Qed.

Lemma gains_for {X} (l : list X) (body : nat → X → M W unit) :
  (∀ i x, gains w 0 (body i x)) → ∀ i, gains w 0 (for_enumerate i l body).
Proof.
  intros Hbody. induction l as [|x l IH]; intros i; simpl.
  - apply gains_ret.
  - apply (gains_bind 0 0); [apply Hbody|intros _; apply IH].
Qed.

End Gains.

(** Walks a body and adds up what its steps gain; [leaf] closes the calls of
    methods. *)
Ltac gains_walk leaf :=
  repeat first
    [ apply gains_ret | apply gains_throw | apply gains_lift
    | apply gains_self_config | apply gains_self_username | apply gains_self_password
    | apply gains_draw
    | eapply gains_emit_is; vm_compute; reflexivity
    | eapply gains_call_is; vm_compute; reflexivity
    | leaf
    | eapply gains_bind; [ | intros ? ]
    | eapply gains_try; [ | intros ? ]
    | eapply gains_finally
    | eapply gains_if ].

(** The same for a body expected to gain nothing less than zero. *)
Ltac gains_zero leaf :=
  repeat first
    [ apply gains_ret | apply gains_throw | apply gains_lift
    | apply gains_self_config | apply gains_self_username | apply gains_self_password
    | apply gains_draw
    | leaf
    | apply (gains_bind _ 0 0); [ | intros ? ]
    | apply (gains_try _ 0 0); [ | intros ? ]
    | apply (gains_finally _ 0 0)
    | apply gains_for; intros ? ?
    | match goal with
      | |- gains _ 0 (if ?c then _ else _) => destruct c
      | |- gains _ 0 (match ?x with _ => _ end) => destruct x
      end ].

Section Tame.
Context {W : Type} {HW : World W} (w : event → Z) (Hw : tame w).

Lemma gains_emit_tame (e : event) :
  is_liked e = false → is_comment e = false → gains w 0 (emit e : M W unit).
Proof.
  intros Hl Hc. apply (gains_weaken _ (w e)); [apply Hw; assumption|apply gains_emit].
Qed.

Lemma gains_call_tame {A} (e : event) (f : W → outcome A * W) :
  is_liked e = false → is_comment e = false → gains w 0 (call e f).
Proof.
  intros Hl Hc. apply (gains_weaken _ (w e)); [apply Hw; assumption|apply gains_call].
Qed.

Ltac tame_leaf :=
  unfold wait_until, wait_until_all, click, send_keys, submit, logger_info, logger_error;
  first [ apply gains_emit_tame; reflexivity | apply gains_call_tame; reflexivity ].

Lemma gains_random_random : gains w 0 random_random.
Proof. unfold random_random. gains_zero fail. Qed.

Lemma gains_random_choice seq : gains w 0 (random_choice seq).
Proof. unfold random_choice. gains_zero fail. Qed.

Lemma gains_random_sleep a b : gains w 0 (random_sleep a b).
Proof.
  unfold random_sleep, py_or, random_uniform, time_sleep.
  gains_zero ltac:(first [apply gains_random_random | tame_leaf]).
Qed.

Lemma gains_login : gains w 0 login.
Proof. unfold login. gains_zero tame_leaf. Qed.

Lemma gains_find_posts user : gains w 0 (find_posts user).
Proof. unfold find_posts. gains_zero ltac:(first [apply gains_random_sleep | tame_leaf]). Qed.

Lemma gains_cleanup : gains w 0 cleanup.
Proof. unfold cleanup. gains_zero tame_leaf. Qed.

(** Once a turn of the loop over posts gains nothing less than zero, so do
    [interact_with_user] and [run]. *)
Lemma gains_interact_with_user user :
  (∀ i post, gains w 0 (visit_post user i post)) → gains w 0 (interact_with_user user).
Proof.
  intros Hvisit. unfold interact_with_user.
  gains_zero ltac:(first [apply gains_find_posts | apply Hvisit | tame_leaf]).
Qed.

Lemma gains_run target_users :
  (∀ user i post, gains w 0 (visit_post user i post)) → gains w 0 (run target_users).
Proof.
  intros Hvisit. unfold run, for_each.
  gains_zero ltac:(first [ apply gains_login | apply gains_cleanup | apply gains_random_sleep
                         | apply gains_interact_with_user, Hvisit | tame_leaf ]).
Qed.

End Tame.

Lemma gains_at_least {W : Type} {A} (w : event → Z) (k k' : Z) (m : M W A) :
  gains w k m → (k' ≤ k)%Z → gains w k' m.
Proof. intros Hm Hk b. specialize (Hm b). lia. Qed.

Lemma tame_credit_liked_comment : tame (credit is_liked is_comment).
Proof. intros e Hl Hc. unfold credit. rewrite Hl, Hc. lia. Qed.

Lemma tame_credit_visit_liked : tame (credit is_visit is_liked).
Proof. intros e Hl Hc. unfold credit. rewrite Hl. destruct (is_visit e); lia. Qed.

Lemma tame_nonneg (w : event → Z) : (∀ e, (0 ≤ w e)%Z) → tame w.
Proof. intros Hw e _ _. apply Hw. Qed.

Section Turn.
Context {W : Type} {HW : World W}.

Ltac unfold_calls :=
  unfold wait_until, wait_until_all, click, send_keys, submit, logger_info, logger_error.

(** Comments against likes: a comment costs one, a like pays one. *)
Lemma comment_costs_one text :
  gains (W := W) (credit is_liked is_comment) (-1) (leave_comment text).
Proof.
  unfold leave_comment. unfold_calls.
  eapply gains_at_least;
    [gains_walk ltac:(apply (gains_random_sleep _ tame_credit_liked_comment))|].
  apply Z.leb_le. vm_compute. reflexivity.
Qed.

Lemma turn_pays_for_comment user i post :
  gains (W := W) (credit is_liked is_comment) 0 (visit_post user i post).
Proof.
  unfold visit_post, post_interaction. unfold_calls.
  eapply gains_at_least;
    [gains_walk ltac:(first [ apply (gains_random_sleep _ tame_credit_liked_comment)
                            | apply gains_random_random
                            | apply gains_random_choice
                            | apply comment_costs_one ])|].
  apply Z.leb_le. vm_compute. reflexivity.
Qed.

(** Likes against visits: a like costs one, a turn of the loop pays one. *)
Lemma turn_pays_for_like user i post :
  gains (W := W) (credit is_visit is_liked) 0 (visit_post user i post).
Proof.
  unfold visit_post, post_interaction, leave_comment. unfold_calls.
  eapply gains_at_least;
    [gains_walk ltac:(first [ apply (gains_random_sleep _ tame_credit_visit_liked)
                            | apply gains_random_random
                            | apply gains_random_choice ])|].
  apply Z.leb_le. vm_compute. reflexivity.
Qed.

(** A weight that is never negative is never lost. *)
Lemma turn_keeps_nonneg (w : event → Z) user i post :
  (∀ e, (0 ≤ w e)%Z) → gains (W := W) w 0 (visit_post user i post).
Proof.
  intros Hw. unfold visit_post, post_interaction, leave_comment. unfold_calls.
  gains_zero ltac:(first
    [ apply (gains_random_sleep _ (tame_nonneg w Hw))
    | apply gains_random_random
    | apply gains_random_choice
    | eapply gains_at_least; [apply gains_emit|apply Hw]
    | eapply gains_at_least; [apply gains_call|apply Hw] ]).
Qed.

End Turn.

Section Counts.
Context {W : Type} {HW : World W}.

(** What a body that gains nothing less than zero, for the three weights,
    does to the three counts. *)
Lemma counts_chain {A} (m : M W A) (b : bot W) :
  gains (credit is_comment (λ _, false)) 0 m →
  gains (credit is_liked is_comment) 0 m →
  gains (credit is_visit is_liked) 0 m →
  (0 ≤ Z.of_nat (comments (trace (m b).2)) - Z.of_nat (comments (trace b)))%Z ∧
  (Z.of_nat (comments (trace (m b).2)) - Z.of_nat (comments (trace b))
   ≤ Z.of_nat (likes (trace (m b).2)) - Z.of_nat (likes (trace b)))%Z ∧
  (Z.of_nat (likes (trace (m b).2)) - Z.of_nat (likes (trace b))
   ≤ Z.of_nat (length (visits (trace (m b).2))) - Z.of_nat (length (visits (trace b))))%Z.
Proof.
  intros Hc Hlc Hvl. specialize (Hc b). specialize (Hlc b). specialize (Hvl b).
  rewrite !weight_credit in Hc, Hlc, Hvl. rewrite !visits_length.
  unfold comments, likes.
  assert (Hnone : ∀ t, length (List.filter (λ _ : event, false) t) = 0%nat)
    by (intros t; induction t; simpl; auto).
  rewrite !Hnone in Hc. lia.
Qed.

Lemma nonneg_credit_comment (e : event) : (0 ≤ credit is_comment (λ _, false) e)%Z.
Proof. unfold credit. destruct (is_comment e); lia. Qed.

Lemma run_counts (target_users : targets) (b : bot W) :
  (0 ≤ Z.of_nat (comments (trace (run target_users b).2)) - Z.of_nat (comments (trace b)))%Z ∧
  (Z.of_nat (comments (trace (run target_users b).2)) - Z.of_nat (comments (trace b))
   ≤ Z.of_nat (likes (trace (run target_users b).2)) - Z.of_nat (likes (trace b)))%Z ∧
  (Z.of_nat (likes (trace (run target_users b).2)) - Z.of_nat (likes (trace b))
   ≤ Z.of_nat (length (visits (trace (run target_users b).2)))
     - Z.of_nat (length (visits (trace b))))%Z.
Proof.
  apply counts_chain.
  - apply gains_run; [apply tame_nonneg, nonneg_credit_comment|].
    intros u i p. apply turn_keeps_nonneg, nonneg_credit_comment.
  - apply gains_run; [apply tame_credit_liked_comment|]. intros u i p. apply turn_pays_for_comment.
  - apply gains_run; [apply tame_credit_visit_liked|]. intros u i p. apply turn_pays_for_like.
Qed.

Lemma interact_counts (user : string) (b : bot W) :
  (0 ≤ Z.of_nat (comments (trace (interact_with_user user b).2))
       - Z.of_nat (comments (trace b)))%Z ∧
  (Z.of_nat (comments (trace (interact_with_user user b).2)) - Z.of_nat (comments (trace b))
   ≤ Z.of_nat (likes (trace (interact_with_user user b).2)) - Z.of_nat (likes (trace b)))%Z ∧
  (Z.of_nat (likes (trace (interact_with_user user b).2)) - Z.of_nat (likes (trace b))
   ≤ Z.of_nat (length (visits (trace (interact_with_user user b).2)))
     - Z.of_nat (length (visits (trace b))))%Z.
Proof.
  apply counts_chain.
  - apply gains_interact_with_user; [apply tame_nonneg, nonneg_credit_comment|].
    intros i p. apply turn_keeps_nonneg, nonneg_credit_comment.
  - apply gains_interact_with_user; [apply tame_credit_liked_comment|].
    intros i p. apply turn_pays_for_comment.
  - apply gains_interact_with_user; [apply tame_credit_visit_liked|].
    intros i p. apply turn_pays_for_like.
Qed.

End Counts.

(** X7: in every run, and in every call of [interact_with_user], a comment is
    left only on a post that was liked, and a like is given only to a post
    that was visited: the new comments are at most the new likes, which are
    at most the new visits. *)
Theorem comments_within_likes_within_visits {W : Type} {HW : World W}
    (target_users : targets) (user : string) (b : bot W) :
  ((0 ≤ Z.of_nat (comments (trace (run target_users b).2)) - Z.of_nat (comments (trace b)))%Z ∧
   (Z.of_nat (comments (trace (run target_users b).2)) - Z.of_nat (comments (trace b))
    ≤ Z.of_nat (likes (trace (run target_users b).2)) - Z.of_nat (likes (trace b)))%Z ∧
   (Z.of_nat (likes (trace (run target_users b).2)) - Z.of_nat (likes (trace b))
    ≤ Z.of_nat (length (visits (trace (run target_users b).2)))
      - Z.of_nat (length (visits (trace b))))%Z) ∧
  ((0 ≤ Z.of_nat (comments (trace (interact_with_user user b).2))
        - Z.of_nat (comments (trace b)))%Z ∧
   (Z.of_nat (comments (trace (interact_with_user user b).2)) - Z.of_nat (comments (trace b))
    ≤ Z.of_nat (likes (trace (interact_with_user user b).2)) - Z.of_nat (likes (trace b)))%Z ∧
   (Z.of_nat (likes (trace (interact_with_user user b).2)) - Z.of_nat (likes (trace b))
    ≤ Z.of_nat (length (visits (trace (interact_with_user user b).2)))
      - Z.of_nat (length (visits (trace b))))%Z).
Proof. split; [apply run_counts|apply interact_counts]. Qed.

(** ** The effective cap of a run *)

Section Caps.
Context {W : Type} {HW : World W}.

Lemma visits_of_markers (b : bot W) : visits (trace b) = visits (markers b).
Proof. unfold markers. symmetry. apply visits_markers. Qed.

Lemma interact_visits (user : string) (b : bot W) :
  visits (trace (interact_with_user user b).2)
  = visits (trace b) ++ enumerate user 0 (posts_taken user b).
Proof.
  destruct (interact_with_user_marks user b) as [_ Hm].
  rewrite !visits_of_markers, Hm, visits_app. simpl. unfold marks.
  rewrite visits_enumerate. reflexivity.
Qed.

Lemma posts_taken_within_limit (user : string) (b : bot W) (n : Z) :
  py_getitem (config b) "posts_per_user" = Ret (PInt n) → (0 ≤ n)%Z →
  (Z.of_nat (length (posts_taken user b)) ≤ n)%Z.
Proof.
  intros Hlim Hn. unfold posts_taken.
  destruct (find_posts user (entered user b)).1 as [posts|e] eqn:Hf; [|simpl; lia].
  apply find_posts_slice in Hf as (found & limit & Hlim' & Hs).
  change (config (entered user b)) with (config b) in Hlim'.
  rewrite Hlim in Hlim'. injection Hlim' as <-. simpl in Hs. injection Hs as <-.
  apply slice_to_length, Hn.
Qed.

Lemma posts_taken_without_wait_time (user : string) (b : bot W) (e : exn) :
  py_getitem (config b) "wait_time" = Raise e → posts_taken user b = [].
Proof.
  intros Hwt. unfold posts_taken. rewrite find_posts_listing.
  unfold listing, logger_info, emit, call. rewrite !bind_unfold. cbn [driver entered snd].
  destruct (driver_get (profile_url user) (driver (entered user b))) as [[[]|e'] w];
    [|reflexivity].
  rewrite bind_unfold.
  rewrite (random_sleep_lookup_fails PNone PNone e); [reflexivity|left; reflexivity|exact Hwt].
Qed.

(** The loop of [run] visits, per profile, what [find_posts] kept. *)
Lemma loop_visits_cap (c : pyval) (n : nat) :
  (∀ user (b' : bot W), config b' = c → (length (posts_taken user b') ≤ n)%nat) →
  ∀ users i (b : bot W), config b = c →
    let loop := for_enumerate i users
                  (λ _ user, interact_with_user user;; random_sleep (PInt 4) (PInt 7)) in
    ∃ vs, visits (trace (loop b).2) = visits (trace b) ++ vs ∧
          (length vs ≤ n * length users)%nat.
Proof.
  intros Hcap. induction users as [|u us IH]; intros i b Hc; simpl.
  - exists []. rewrite app_nil_r. split; [reflexivity|simpl; nia].
  - rewrite !bind_unfold.
    pose proof (interact_visits u b) as Hv.
    pose proof (self_interact_with_user config of_self_config u b) as Hc1.
    destruct (interact_with_user_marks u b) as [Hr _].
    destruct (interact_with_user u b) as [r b1]. simpl in Hv, Hc1, Hr. subst r.
    pose proof (random_sleep_4_7 b1) as Hs.
    pose proof (stable_random_sleep markers blind_markers (PInt 4) (PInt 7) b1) as Hq.
    pose proof (stable_random_sleep config (blind_of_self config of_self_config)
                  (PInt 4) (PInt 7) b1) as Hc2.
    destruct (random_sleep (PInt 4) (PInt 7) b1) as [r b2]. simpl in Hs, Hq, Hc2. subst r.
    destruct (IH (S i) b2) as (vs & Hvs & Hlen); [congruence|].
    exists (enumerate u 0 (posts_taken u b) ++ vs). split.
    + rewrite Hvs, (visits_of_markers b2), Hq, <- visits_of_markers, Hv, <- app_assoc.
      reflexivity.
    + rewrite length_app, visits_enumerate_length. specialize (Hcap u b Hc).
      simpl length. nia.
Qed.

(** The state a [finally: self.cleanup()] leaves is the one [cleanup] leaves. *)
Lemma finally_cleanup_state {A} (r : outcome A) (b2 : bot W) :
  (match cleanup b2 with
   | (Ret _, b'') => (r, b'')
   | (Raise e, b'') => (Raise e, b'')
   end).2 = (cleanup b2).2.
Proof. destruct (cleanup b2) as [[[]|e] b3]; reflexivity. Qed.

Lemma run_visits_cap (c : pyval) (n : nat) (target_users : targets) (b : bot W) :
  (∀ user (b' : bot W), config b' = c → (length (posts_taken user b') ≤ n)%nat) →
  config b = c →
  ∃ vs, visits (trace (run target_users b).2) = visits (trace b) ++ vs ∧
        (length vs ≤ n * length (users_of target_users))%nat.
Proof.
  intros Hcap Hc.
  unfold run, try_finally, try_except. rewrite bind_unfold.
  destruct (login_returns b) as [ok Hok].
  pose proof (stable_login markers blind_markers b) as Hl.
  pose proof (stable_login config (blind_of_self config of_self_config) b) as Hc1.
  destruct (login b) as [r b1]. simpl in Hok, Hl, Hc1. subst r.
  assert (Hend : ∀ (b2 : bot W) vs,
            visits (trace b2) = visits (trace b) ++ vs →
            visits (trace (cleanup b2).2) = visits (trace b) ++ vs).
  { intros b2 vs Hb2. destruct (cleanup_marks b2) as [_ Hm].
    rewrite (visits_of_markers (cleanup b2).2), Hm, visits_app, <- visits_of_markers.
    simpl. rewrite app_nil_r. exact Hb2. }
  assert (Hb1 : visits (trace b1) = visits (trace b) ++ [])
    by (rewrite app_nil_r, !visits_of_markers, Hl; reflexivity).
  destruct ok; cbn [negb]; cbv iota beta.
  - rewrite bind_unfold. unfold lift, for_each.
    destruct target_users as [l|s|]; simpl py_iter; cbv iota beta.
    1, 2: match goal with
          | |- context [for_enumerate 0 ?users ?body ?b'] =>
              destruct (loop_visits_cap c n Hcap users 0 b') as (vs & Hvs & Hlen);
                [congruence|];
              pose proof (profiles_loop users 0 b') as [Hr _];
              destruct (for_enumerate 0 users body b') as [r b2]
          end;
          simpl in Hr, Hvs; subst r;
          exists vs; (split; [|exact Hlen]);
          rewrite finally_cleanup_state; apply Hend;
          rewrite Hvs, Hb1, app_nil_r; reflexivity.
    exists []. split; [|simpl; lia]. unfold logger_error, emit.
    rewrite finally_cleanup_state. apply Hend. simpl.
    rewrite visits_app. simpl. rewrite app_nil_r. exact Hb1.
  - exists []. split; [|simpl; lia]. unfold mret, M_ret.
    rewrite finally_cleanup_state. apply Hend. exact Hb1.
Qed.

End Caps.

(** X8: although the like cap is never read, a run is bounded all the same: with
    a limit [n >= 0] on posts per profile, a run over [k] target profiles
    visits at most [n * k] posts, and so gives at most [n * k] likes and
    leaves at most [n * k] comments. *)
Theorem run_effective_cap {W : Type} {HW : World W}
    (target_users : targets) (b : bot W) (n : Z) :
  py_getitem (config b) "posts_per_user" = Ret (PInt n) →
  (0 ≤ n)%Z →
  (Z.of_nat (length (visits (trace (run target_users b).2)))
   ≤ Z.of_nat (length (visits (trace b))) + n * Z.of_nat (length (users_of target_users)))%Z ∧
  (Z.of_nat (likes (trace (run target_users b).2))
   ≤ Z.of_nat (likes (trace b)) + n * Z.of_nat (length (users_of target_users)))%Z ∧
  (Z.of_nat (comments (trace (run target_users b).2))
   ≤ Z.of_nat (comments (trace b)) + n * Z.of_nat (length (users_of target_users)))%Z.
Proof.
  intros Hlim Hn.
  destruct (run_visits_cap (config b) (Z.to_nat n) target_users b) as (vs & Hvs & Hlen);
    [|reflexivity|].
  { intros user b' Hc.
    pose proof (posts_taken_within_limit user b' n) as Hb. rewrite Hc in Hb.
    specialize (Hb Hlim Hn). lia. }
  destruct (run_counts target_users b) as (_ & Hcl & Hlv).
  rewrite Hvs, length_app in *. nia.
Qed.

Lemma run_effective_cap_witness :
  (Z.of_nat (likes (trace (run (HW := Scripted.scripted flaky)
                             (Names ["chairo_store101"; "sandanu_hewage"])
                             (Scripted.session flaky (PDict default_config))).2))
   ≤ Z.of_nat (likes []) + 3 * Z.of_nat 2)%Z.
Proof.
  apply (run_effective_cap (HW := Scripted.scripted flaky)
           (Names ["chairo_store101"; "sandanu_hewage"])
           (Scripted.session flaky (PDict default_config)) 3);
    [reflexivity | lia].
Defined.

(** X9: with a configuration that has no [wait_time], a whole run achieves
    nothing: every target profile is requested, and no post is visited,
    liked or commented. *)
Theorem run_without_wait_time {W : Type} {HW : World W}
    (target_users : targets) (e : exn) (b : bot W) :
  py_getitem (config b) "wait_time" = Raise e →
  visits (trace (run target_users b).2) = visits (trace b) ∧
  likes (trace (run target_users b).2) = likes (trace b) ∧
  comments (trace (run target_users b).2) = comments (trace b).
Proof.
  intros Hwt.
  destruct (run_visits_cap (config b) 0 target_users b) as (vs & Hvs & Hlen);
    [|reflexivity|].
  { intros user b' Hc.
    rewrite (posts_taken_without_wait_time user b' e); [simpl; lia|]. rewrite Hc. exact Hwt. }
  destruct vs; [|simpl in Hlen; lia]. rewrite app_nil_r in Hvs.
  destruct (run_counts target_users b) as (Hc0 & Hcl & Hlv).
  rewrite Hvs in Hlv. split; [exact Hvs|]. lia.
Qed.

Lemma run_without_wait_time_witness :
  visits (trace (run (HW := Scripted.scripted Scripted.plain)
                   (Names ["chairo_store101"; "sandanu_hewage"])
                   (Scripted.session Scripted.plain
                      (PDict {[ "posts_per_user" := PInt 5 ]}))).2) = [].
Proof.
  apply (run_without_wait_time (HW := Scripted.scripted Scripted.plain)
           (Names ["chairo_store101"; "sandanu_hewage"]) KeyError
           (Scripted.session Scripted.plain (PDict {[ "posts_per_user" := PInt 5 ]}))).
  reflexivity.
Defined.

(** ** What leaves the session *)

Section Only.
Context {W : Type} {HW : World W}.
Context (c : pyval) (u p : string) (P : event → Prop).
Context (Hplain : ∀ e, sensitive e = false → P e).

Local Abbreviation only := (only (W := W) c u p P).

Lemma only_unchanged {A} (m : M W A) : (∀ b, (m b).2 = b) → only m.
Proof.
  intros Hm b Hb. rewrite Hm. split; [exact Hb|]. exists []. rewrite app_nil_r. auto.
Qed.

Lemma only_ret {A} (a : A) : only (mret a).
Proof. apply only_unchanged. reflexivity. Qed.

Lemma only_throw {A} (e : exn) : only (mthrow e : M W A).
Proof. apply only_unchanged. reflexivity. Qed.

Lemma only_lift {A} (r : outcome A) : only (lift r).
Proof. apply only_unchanged. reflexivity. Qed.

Lemma only_self_config (k : string) : only (self_config k).
Proof. apply only_unchanged. reflexivity. Qed.

Lemma only_draw : only draw.
Proof.
  intros b Hb. unfold draw. destruct (getrandbits (driver b)) as [k w]. simpl.
  split; [exact Hb|]. exists []. rewrite app_nil_r. auto.
Qed.

Lemma only_emit_if (e : event) : P e → only (emit e).
Proof. intros He b Hb. simpl. split; [exact Hb|]. exists [e]. auto. Qed.

Lemma only_call_if {A} (e : event) (f : W → outcome A * W) : P e → only (call e f).
Proof.
  intros He b Hb. unfold call. destruct (f (driver b)) as [r w]. simpl.
  split; [exact Hb|]. exists [e]. auto.
Qed.

Lemma only_emit (e : event) : sensitive e = false → only (emit e).
Proof. intros He. apply only_emit_if, Hplain, He. Qed.

Lemma only_call {A} (e : event) (f : W → outcome A * W) :
  sensitive e = false → only (call e f).
Proof. intros He. apply only_call_if, Hplain, He. Qed.

Lemma only_bind {A B} (m : M W A) (f : A → M W B) :
  only m → (∀ a, only (f a)) → only (m ≫= f).
Proof.
  intros Hm Hf b Hb. rewrite bind_unfold. destruct (Hm b Hb) as [Hb1 (evs & Ht & Hevs)].
  destruct (m b) as [[a|e] b1]; simpl in *.
  - destruct (Hf a b1 Hb1) as [Hb2 (evs' & Ht' & Hevs')]. split; [exact Hb2|].
    exists (evs ++ evs'). rewrite Ht', Ht, app_assoc. split; [reflexivity|].
    apply Forall_app; auto.
  - split; [exact Hb1|]. exists evs. auto.
Qed.

Lemma only_try {A} (m : M W A) (h : exn → M W A) :
  only m → (∀ e, only (h e)) → only (try_except m h).
Proof.
  intros Hm Hh b Hb. unfold try_except. destruct (Hm b Hb) as [Hb1 (evs & Ht & Hevs)].
  destruct (m b) as [[a|e] b1]; simpl in *.
  - split; [exact Hb1|]. exists evs. auto.
  - destruct (Hh e b1 Hb1) as [Hb2 (evs' & Ht' & Hevs')]. split; [exact Hb2|].
    exists (evs ++ evs'). rewrite Ht', Ht, app_assoc. split; [reflexivity|].
    apply Forall_app; auto.
Qed.

Lemma only_finally {A} (m : M W A) (f : M W unit) :
  only m → only f → only (try_finally m f).
Proof.
  intros Hm Hf b Hb. unfold try_finally. destruct (Hm b Hb) as [Hb1 (evs & Ht & Hevs)].
  destruct (m b) as [r b1]. simpl in *.
  destruct (Hf b1 Hb1) as [Hb2 (evs' & Ht' & Hevs')].
  destruct (f b1) as [[[]|e] b2]; simpl in *;
    (split; [exact Hb2|]); exists (evs ++ evs'); rewrite Ht', Ht, app_assoc;
    (split; [reflexivity|]); apply Forall_app; auto.
Qed.

(** A loop whose turns behave for the items of the list. *)
Lemma only_for {X} (l : list X) (body : nat → X → M W unit) :
  (∀ i x, x ∈ l → only (body i x)) → ∀ i, only (for_enumerate i l body).
Proof.
  induction l as [|x l IH]; intros Hbody i; simpl.
  - apply only_ret.
  - apply only_bind.
    + apply Hbody. left.
    + intros _. apply IH. intros j y Hy. apply Hbody. right. exact Hy.
Qed.

(** A body that goes on with a field of the object knows its value. *)
Lemma only_bind_username {B} (f : string → M W B) : only (f u) → only (self_username ≫= f).
Proof.
  intros Hf b Hb. rewrite bind_unfold. simpl.
  destruct Hb as (Hc & Hu & Hp). rewrite Hu. apply Hf. repeat split; assumption.
Qed.

Lemma only_bind_password {B} (f : string → M W B) : only (f p) → only (self_password ≫= f).
Proof.
  intros Hf b Hb. rewrite bind_unfold. simpl.
  destruct Hb as (Hc & Hu & Hp). rewrite Hp. apply Hf. repeat split; assumption.
Qed.

Lemma only_bind_config {B} (k : string) (f : pyval → M W B) :
  (∀ v, py_getitem c k = Ret v → only (f v)) → only (self_config k ≫= f).
Proof.
  intros Hf b Hb. rewrite bind_unfold. unfold self_config.
  destruct Hb as (Hc & Hu & Hp). rewrite Hc.
  destruct (py_getitem c k) as [v|e] eqn:Hv.
  - apply (Hf v eq_refl). repeat split; assumption.
  - simpl. split; [repeat split; assumption|]. exists []. rewrite app_nil_r. auto.
Qed.

(** What [random.choice] returns from a list is an item of the list. *)
Lemma only_bind_choice {B} (l : list pyval) (f : pyval → M W B) :
  (∀ x, x ∈ l → only (f x)) → only (random_choice (PList l) ≫= f).
Proof.
  intros Hf b Hb. unfold random_choice. rewrite !bind_unfold. unfold lift. simpl.
  destruct l as [|x0 l']; simpl.
  - split; [exact Hb|]. exists []. rewrite app_nil_r. auto.
  - rewrite bind_unfold. unfold draw. destruct (getrandbits (driver b)) as [k w]. simpl.
    match goal with
    | |- context [(x0 :: l') !! ?i] => destruct ((x0 :: l') !! i) as [x|] eqn:Hx
    end.
    + apply list_elem_of_lookup_2 in Hx.
      destruct (Hf x Hx (Bot (username b) (password b) (config b) w (trace b)))
        as [Hb2 Hevs]; [exact Hb|].
      split; [exact Hb2|exact Hevs].
    + split; [exact Hb|]. exists []. rewrite app_nil_r. auto.
Qed.

End Only.

Ltac only_walk leaf :=
  repeat first
    [ apply only_ret | apply only_throw | apply only_lift | apply only_self_config
    | apply only_draw
    | apply only_emit; [assumption|reflexivity]
    | apply only_call; [assumption|reflexivity]
    | leaf
    | apply only_bind_username
    | apply only_bind_password
    | apply only_bind; [ | intros ? ]
    | apply only_try; [ | intros ? ]
    | apply only_finally
    | match goal with
      | |- only _ _ _ _ (if ?c then _ else _) => destruct c
      | |- only _ _ _ _ (match ?x with _ => _ end) => destruct x
      end ].

Section Outgoing.
Context {W : Type} {HW : World W}.
Context (c : pyval) (u p : string) (P : event → Prop).
Context (Hplain : ∀ e, sensitive e = false → P e).

Local Abbreviation only := (only (W := W) c u p P).

Ltac unfold_calls :=
  unfold wait_until, wait_until_all, click, send_keys, submit, logger_info, logger_error.

(** A pause, when any length will do. *)
Lemma only_random_sleep_any a b : (∀ d, P (Sleep d)) → only (random_sleep a b).
Proof.
  intros Hany. unfold random_sleep, py_or, random_uniform, random_random, time_sleep.
  only_walk ltac:(apply only_emit_if, Hany).
Qed.

(** A pause, when its length must lie between the two effective bounds. *)
Lemma only_random_sleep_range a b :
  (∀ lo hi x y d,
     effective_bound a "min" c = Ret lo → effective_bound b "max" c = Ret hi →
     as_number lo = Ret x → as_number hi = Ret y →
     ((x <= d)%Q ∧ (d <= y)%Q) ∨ ((y <= d)%Q ∧ (d <= x)%Q) →
     P (Sleep d)) →
  only (random_sleep a b).
Proof.
  intros Hrange b0 Hb0. pose proof Hb0 as (Hc & Hu & Hp).
  assert (Hsame : self_is c u p b0 ∧ ∃ evs, trace b0 = trace b0 ++ evs ∧ Forall P evs).
  { split; [exact Hb0|]. exists []. rewrite app_nil_r. auto. }
  rewrite random_sleep_unfold, Hc.
  destruct (effective_bound a "min" c) as [lo|e] eqn:Hlo; [|exact Hsame].
  destruct (effective_bound b "max" c) as [hi|e] eqn:Hhi; [|exact Hsame].
  destruct (as_number lo) as [x|e] eqn:Hx.
  2: { destruct (random_uniform_not_numbers lo hi b0) as [e' He']; [left; eauto|].
       rewrite bind_unfold, He'. exact Hsame. }
  destruct (as_number hi) as [y|e] eqn:Hy.
  2: { destruct (random_uniform_not_numbers lo hi b0) as [e' He']; [right; eauto|].
       rewrite bind_unfold, He'. exact Hsame. }
  rewrite bind_unfold, (random_uniform_numbers lo hi x y b0 Hx Hy). cbv iota beta.
  destruct (unit_interval (getrandbits (driver b0)).1) as [Hr0 Hr1].
  set (r := (Z.of_N ((getrandbits (driver b0)).1 mod 2 ^ 53)%N # (2 ^ 53)%positive)) in *.
  match goal with |- context [time_sleep ?d ?b'] =>
    destruct (time_sleep_outcome d b') as [(Heq & _)|[e Heq]]; rewrite Heq end; simpl.
  2: { split; [repeat split; assumption|]. exists []. rewrite app_nil_r. auto. }
  - split; [repeat split; assumption|]. exists [Sleep (x + (y - x) * r)%Q].
    split; [reflexivity|]. constructor; [|constructor].
    apply (Hrange lo hi x y); auto.
    destruct (Qlt_le_dec y x); [right|left]; split; nra.
Qed.

(** The two pauses of the source: within a profile, and between profiles. *)
Context (Hpause : only (random_sleep PNone PNone)).
Context (Hpause_users : only (random_sleep (PInt 4) (PInt 7))).

Lemma only_random_choice seq : only (random_choice seq).
Proof. unfold random_choice. only_walk fail. Qed.

Lemma only_cleanup : only cleanup.
Proof. unfold cleanup. unfold_calls. only_walk fail. Qed.

(** [login] requests the login page and types the two credentials. *)
Lemma only_login :
  P (Get login_url) → (∀ e, P (SendKeys e (PStr u))) → (∀ e, P (SendKeys e (PStr p))) →
  only login.
Proof.
  intros Hurl Hu Hp. unfold login. unfold_calls.
  only_walk ltac:(first [ apply only_call_if, Hurl
                        | apply only_call_if, Hu
                        | apply only_call_if, Hp ]).
Qed.

(** [leave_comment] types its argument. *)
Lemma only_leave_comment text : (∀ e, P (SendKeys e text)) → only (leave_comment text).
Proof.
  intros Htext. unfold leave_comment. unfold_calls.
  only_walk ltac:(first [exact Hpause | apply only_call_if, Htext]).
Qed.

(** [find_posts] requests the page of the profile. *)
Lemma only_find_posts user : P (Get (profile_url user)) → only (find_posts user).
Proof.
  intros Hurl. unfold find_posts. unfold_calls.
  only_walk ltac:(first [exact Hpause | apply only_call_if, Hurl]).
Qed.

(** What is typed in a turn of the loop over posts is what [random.choice]
    took from the configured comments. *)
Context (Hpool : ∀ v, py_getitem c "random_comments" = Ret v →
                      (∀ e x, P (SendKeys e x)) ∨
                      (∃ l, v = PList l ∧ ∀ x, x ∈ l → ∀ e, P (SendKeys e x))).

Lemma only_comment_step :
  only (comments ← self_config "random_comments";
        text ← random_choice comments;
        leave_comment text).
Proof.
  apply only_bind_config. intros v Hv.
  destruct (Hpool v Hv) as [Hany|(l & -> & Hl)].
  - apply only_bind; [apply only_random_choice|].
    intros text. apply only_leave_comment. intros e. apply Hany.
  - apply only_bind_choice.
    intros x Hx. apply only_leave_comment. intros e. apply Hl, Hx.
Qed.

Lemma only_visit_post user i post : only (visit_post user i post).
Proof.
  unfold visit_post, post_interaction, random_random. unfold_calls.
  only_walk ltac:(first [exact Hpause | apply only_comment_step]).
Qed.

Lemma only_interact_with_user user :
  P (Get (profile_url user)) → only (interact_with_user user).
Proof.
  intros Hurl. unfold interact_with_user. unfold_calls.
  apply only_bind; [apply only_emit; [exact Hplain|reflexivity]|]. intros _.
  apply only_try; [|intros e; apply only_emit; [exact Hplain|reflexivity]].
  apply only_bind; [apply only_find_posts, Hurl|]. intros posts.
  apply only_for. intros i post _. apply only_visit_post.
Qed.

Lemma only_run target_users :
  P (Get login_url) → (∀ e, P (SendKeys e (PStr u))) → (∀ e, P (SendKeys e (PStr p))) →
  (∀ user, user ∈ users_of target_users → P (Get (profile_url user))) →
  only (run target_users).
Proof.
  intros Hurl Hu Hp Hprofiles. unfold run.
  apply only_finally; [|apply only_cleanup].
  apply only_try; [|intros e; unfold logger_error; apply only_emit; [exact Hplain|reflexivity]].
  apply only_bind; [apply only_login; assumption|]. intros ok.
  destruct ok; cbn [negb]; [|apply only_ret].
  assert (Hloop : only (for_each (users_of target_users)
                          (λ user, interact_with_user user;;
                                   random_sleep (PInt 4) (PInt 7)))).
  { unfold for_each. apply only_for. intros i user Huser.
    apply only_bind; [apply only_interact_with_user, Hprofiles, Huser|].
    intros _. exact Hpause_users. }
  destruct target_users as [l|s|]; simpl in Hloop |- *.
  - intros b Hb. rewrite bind_unfold. apply Hloop, Hb.
  - intros b Hb. rewrite bind_unfold. apply Hloop, Hb.
  - intros b Hb. rewrite bind_unfold. simpl.
    split; [exact Hb|]. exists []. rewrite app_nil_r. auto.
Qed.

End Outgoing.

(** X10: everything a run types into the page is the user name, the password or
    one of the configured comments, and everything [interact_with_user]
    types is one of the configured comments (when [random_comments] is a
    list, as it is by default). *)
Theorem run_types_only_known_text {W : Type} {HW : World W}
    (target_users : targets) (user : string) (b : bot W) (l : list pyval) :
  py_getitem (config b) "random_comments" = Ret (PList l) →
  (∃ evs, trace (run target_users b).2 = trace b ++ evs ∧
          ∀ e x, SendKeys e x ∈ evs →
                 x = PStr (username b) ∨ x = PStr (password b) ∨ x ∈ l) ∧
  (∃ evs, trace (interact_with_user user b).2 = trace b ++ evs ∧
          ∀ e x, SendKeys e x ∈ evs → x ∈ l).
Proof.
  intros Hc. split.
  - set (P := λ ev, match ev with
                    | SendKeys _ x => x = PStr (username b) ∨ x = PStr (password b) ∨ x ∈ l
                    | _ => True
                    end).
    assert (Hplain : ∀ e, sensitive e = false → P e)
      by (intros [] He; simpl; try exact I; discriminate He).
    destruct (only_run (config b) (username b) (password b) P Hplain) with
      (target_users := target_users) (b := b) as [_ (evs & Ht & Hevs)];
      try solve [simpl; auto | repeat split
                | apply only_random_sleep_any; intros d; exact I].
    + intros v Hv. right. exists l. rewrite Hc in Hv. injection Hv as <-.
      split; [reflexivity|]. intros x Hx e. simpl. auto.
    + exists evs. split; [exact Ht|]. intros e x Hin.
      rewrite Forall_forall in Hevs. apply (Hevs _ Hin).
  - set (P := λ ev, match ev with
                    | SendKeys _ x => x ∈ l
                    | _ => True
                    end).
    assert (Hplain : ∀ e, sensitive e = false → P e)
      by (intros [] He; simpl; try exact I; discriminate He).
    destruct (only_interact_with_user (config b) (username b) (password b) P Hplain) with
      (user := user) (b := b) as [_ (evs & Ht & Hevs)];
      try solve [simpl; auto | repeat split
                | apply only_random_sleep_any; intros d; exact I].
    + intros v Hv. right. exists l. rewrite Hc in Hv. injection Hv as <-.
      split; [reflexivity|]. intros x Hx e. simpl. auto.
    + exists evs. split; [exact Ht|]. intros e x Hin.
      rewrite Forall_forall in Hevs. apply (Hevs _ Hin).
Qed.

Lemma run_types_only_known_text_witness :
  ∃ evs, trace (run (HW := Scripted.scripted flaky) (Names ["chairo_store101"])
                  (Scripted.session flaky (PDict default_config))).2 = [] ++ evs ∧
         ∀ e x, SendKeys e x ∈ evs →
                x = PStr "sandanu_hewage" ∨ x = PStr "" ∨
                x ∈ [ PStr "Great post! 👍"; PStr "Amazing! 🔥";
                      PStr "Love this! ❤️"; PStr "Awesome content! ✨" ].
Proof.
  apply (run_types_only_known_text (HW := Scripted.scripted flaky)
           (Names ["chairo_store101"]) "chairo_store101"
           (Scripted.session flaky (PDict default_config))
           [ PStr "Great post! 👍"; PStr "Amazing! 🔥";
             PStr "Love this! ❤️"; PStr "Awesome content! ✨" ]).
  reflexivity.
Defined.

(** X11: the only pages a run requests are the login page and the profile pages
    of its target users; [interact_with_user] requests the page of its
    profile and no other. *)
Theorem run_requests_only_known_pages {W : Type} {HW : World W}
    (target_users : targets) (user : string) (b : bot W) :
  (∃ evs, trace (run target_users b).2 = trace b ++ evs ∧
          ∀ url, Get url ∈ evs →
                 url = login_url ∨
                 ∃ target, target ∈ users_of target_users ∧ url = profile_url target) ∧
  (∃ evs, trace (interact_with_user user b).2 = trace b ++ evs ∧
          ∀ url, Get url ∈ evs → url = profile_url user).
Proof.
  split.
  - set (P := λ ev, match ev with
                    | Get url =>
                        url = login_url ∨
                        ∃ target, target ∈ users_of target_users ∧ url = profile_url target
                    | _ => True
                    end).
    assert (Hplain : ∀ e, sensitive e = false → P e)
      by (intros [] He; simpl; try exact I; discriminate He).
    destruct (only_run (config b) (username b) (password b) P Hplain) with
      (target_users := target_users) (b := b) as [_ (evs & Ht & Hevs)];
      try solve [simpl; auto | repeat split
                | apply only_random_sleep_any; intros d; exact I].
    + intros target Htarget. right. exists target. auto.
    + exists evs. split; [exact Ht|]. intros url Hin.
      rewrite Forall_forall in Hevs. apply (Hevs _ Hin).
  - set (P := λ ev, match ev with
                    | Get url => url = profile_url user
                    | _ => True
                    end).
    assert (Hplain : ∀ e, sensitive e = false → P e)
      by (intros [] He; simpl; try exact I; discriminate He).
    destruct (only_interact_with_user (config b) (username b) (password b) P Hplain) with
      (user := user) (b := b) as [_ (evs & Ht & Hevs)];
      try solve [simpl; auto | repeat split
                | apply only_random_sleep_any; intros d; exact I].
    exists evs. split; [exact Ht|]. intros url Hin.
    rewrite Forall_forall in Hevs. apply (Hevs _ Hin).
Qed.

(** X12: every pause of a run is within a known range: with numeric bounds
    [x <= y] configured as [wait_time], a pause inside a profile lasts
    between [x] and [y] seconds and the pause after each profile between 4
    and 7 seconds; [interact_with_user] pauses only for the first kind. *)
Theorem run_pauses_within_ranges {W : Type} {HW : World W}
    (target_users : targets) (user : string) (b : bot W) (wt lo hi : pyval) (x y : Q) :
  py_getitem (config b) "wait_time" = Ret wt →
  py_getitem wt "min" = Ret lo → py_getitem wt "max" = Ret hi →
  as_number lo = Ret x → as_number hi = Ret y →
  (x <= y)%Q →
  (∃ evs, trace (run target_users b).2 = trace b ++ evs ∧
          ∀ d, Sleep d ∈ evs →
               ((x <= d)%Q ∧ (d <= y)%Q) ∨ ((inject_Z 4 <= d)%Q ∧ (d <= inject_Z 7)%Q)) ∧
  (∃ evs, trace (interact_with_user user b).2 = trace b ++ evs ∧
          ∀ d, Sleep d ∈ evs → (x <= d)%Q ∧ (d <= y)%Q).
Proof.
  intros Hwt Hlo Hhi Hx Hy Hxy.
  assert (Hdefault : ∀ lo' hi' x' y' d,
            effective_bound PNone "min" (config b) = Ret lo' →
            effective_bound PNone "max" (config b) = Ret hi' →
            as_number lo' = Ret x' → as_number hi' = Ret y' →
            ((x' <= d)%Q ∧ (d <= y')%Q) ∨ ((y' <= d)%Q ∧ (d <= x')%Q) →
            (x <= d)%Q ∧ (d <= y)%Q).
  { unfold effective_bound. simpl. rewrite Hwt, Hlo, Hhi.
    intros lo' hi' x' y' d [= <-] [= <-] Hx' Hy'.
    rewrite Hx in Hx'. rewrite Hy in Hy'. injection Hx' as <-. injection Hy' as <-.
    intros [[H1 H2]|[H1 H2]]; split; lra. }
  split.
  - set (P := λ ev, match ev with
                    | Sleep d => ((x <= d)%Q ∧ (d <= y)%Q) ∨
                                 ((inject_Z 4 <= d)%Q ∧ (d <= inject_Z 7)%Q)
                    | _ => True
                    end).
    assert (Hplain : ∀ e, sensitive e = false → P e)
      by (intros [] He; simpl; try exact I; discriminate He).
    destruct (only_run (config b) (username b) (password b) P Hplain) with
      (target_users := target_users) (b := b) as [_ (evs & Ht & Hevs)];
      try solve [simpl; auto | repeat split].
    + apply only_random_sleep_range. intros lo' hi' x' y' d H1 H2 H3 H4 H5.
      left. apply (Hdefault lo' hi' x' y' d); assumption.
    + apply only_random_sleep_range. intros lo' hi' x' y' d [= <-] [= <-] [= <-] [= <-] H5.
      right. destruct H5 as [[H1 H2]|[H1 H2]]; [split; assumption|].
      exfalso. assert (H47 : (inject_Z 4 < inject_Z 7)%Q) by reflexivity. lra.
    + exists evs. split; [exact Ht|]. intros d Hin.
      rewrite Forall_forall in Hevs. apply (Hevs _ Hin).
  - set (P := λ ev, match ev with
                    | Sleep d => (x <= d)%Q ∧ (d <= y)%Q
                    | _ => True
                    end).
    assert (Hplain : ∀ e, sensitive e = false → P e)
      by (intros [] He; simpl; try exact I; discriminate He).
    destruct (only_interact_with_user (config b) (username b) (password b) P Hplain) with
      (user := user) (b := b) as [_ (evs & Ht & Hevs)];
      try solve [simpl; auto | repeat split].
    + apply only_random_sleep_range. intros lo' hi' x' y' d H1 H2 H3 H4 H5.
      apply (Hdefault lo' hi' x' y' d); assumption.
    + exists evs. split; [exact Ht|]. intros d Hin.
      rewrite Forall_forall in Hevs. apply (Hevs _ Hin).
Qed.

Lemma run_pauses_within_ranges_witness :
  ∃ evs, trace (run (HW := Scripted.scripted flaky)
                  (Names ["chairo_store101"; "sandanu_hewage"])
                  (Scripted.session flaky (PDict default_config))).2 = [] ++ evs ∧
         ∀ d, Sleep d ∈ evs →
              ((inject_Z 2 <= d)%Q ∧ (d <= inject_Z 4)%Q) ∨
              ((inject_Z 4 <= d)%Q ∧ (d <= inject_Z 7)%Q).
Proof.
  apply (run_pauses_within_ranges (HW := Scripted.scripted flaky)
           (Names ["chairo_store101"; "sandanu_hewage"]) "chairo_store101"
           (Scripted.session flaky (PDict default_config))
           (PDict {[ "min" := PInt 2; "max" := PInt 4 ]}) (PInt 2) (PInt 4)
           (inject_Z 2) (inject_Z 4));
    solve [reflexivity | discriminate].
Defined.

(** ** Logging in *)

(** Runs the calls on the browser one after the other, by cases on what
    each returns. *)
Ltac browser_cases :=
  repeat match goal with
         | |- context [driver_get ?url ?w] =>
             destruct (driver_get url w) as [[[]|?] ?]; cbn
         | |- context [presence_of_element_located ?how ?sel ?w] =>
             destruct (presence_of_element_located how sel w) as [[?|?] ?]; cbn
         | |- context [element_send_keys ?e ?text ?w] =>
             destruct (element_send_keys e text w) as [[[]|?] ?]; cbn
         | |- context [element_submit ?e ?w] =>
             destruct (element_submit e w) as [[[]|?] ?]; cbn
         | |- context [driver_quit ?w] =>
             destruct (driver_quit w) as [[[]|?] ?]; cbn
         end.

(** X13: the outcome of [login], read off the answers of the browser.  The
    login page is requested, the field named [username] is located, then the
    field named [password]; the user name is typed into the element the first
    search returned and the password into the element the second returned,
    which is also the one submitted; then the main page is awaited.  The first
    call that raises ends the attempt: [login] returns [False], and the one
    error record reports that very exception (the time-out message for a
    [TimeoutException], the exception itself otherwise); nothing is called
    after it.  When all seven calls return, [login] returns [True] and the
    last record is the success message.  [login] never raises. *)
Theorem login_outcome {W : Type} {HW : World W} (b : bot W) :
  let after w calls :=
    Bot (username b) (password b) (config b) w
      (trace b ++ Log Info (AttemptingLogin (username b)) :: Get login_url :: calls) in
  let fails w calls e :=
    login b = (Ret false, after w (calls ++ [Log Error (login_failure e)])) in
  match driver_get login_url (driver b) with
  | (Raise e, w) => fails w [] e
  | (Ret _, w) =>
  match presence_of_element_located ByName "username" w with
  | (Raise e, w) => fails w [Wait ByName "username"] e
  | (Ret username_input, w) =>
  match presence_of_element_located ByName "password" w with
  | (Raise e, w) => fails w [Wait ByName "username"; Wait ByName "password"] e
  | (Ret password_input, w) =>
  let typed_name := SendKeys username_input (PStr (username b)) in
  let typed_pass := SendKeys password_input (PStr (password b)) in
  match element_send_keys username_input (PStr (username b)) w with
  | (Raise e, w) =>
      fails w [Wait ByName "username"; Wait ByName "password"; typed_name] e
  | (Ret _, w) =>
  match element_send_keys password_input (PStr (password b)) w with
  | (Raise e, w) =>
      fails w [Wait ByName "username"; Wait ByName "password"; typed_name; typed_pass] e
  | (Ret _, w) =>
  match element_submit password_input w with
  | (Raise e, w) =>
      fails w [Wait ByName "username"; Wait ByName "password"; typed_name; typed_pass;
               Submit password_input] e
  | (Ret _, w) =>
  match presence_of_element_located ByCssSelector "main[role='main']" w with
  | (Raise e, w) =>
      fails w [Wait ByName "username"; Wait ByName "password"; typed_name; typed_pass;
               Submit password_input; Wait ByCssSelector "main[role='main']"] e
  | (Ret _, w) =>
      login b
      = (Ret true,
         after w [Wait ByName "username"; Wait ByName "password"; typed_name; typed_pass;
                  Submit password_input; Wait ByCssSelector "main[role='main']";
                  Log Info LoggedIn])
  end end end end end end end.
Proof.
  unfold login, try_except, wait_until, send_keys, submit, logger_info, logger_error, call,
    emit, self_username, self_password, login_url.
  unfold mbind, M_bind, mret, M_ret. cbn.
  browser_cases;
    try match goal with e : exn |- _ => destruct e; cbn end;
    rewrite <- ?app_assoc; reflexivity.
Qed.

(** ** A run whose login fails *)

(** X14: when [login] returns false, a run is the login attempt followed by the
    cleanup and nothing else: the browser is quit, and the last record says
    that the session ended, or why quitting failed. *)
Theorem run_after_failed_login {W : Type} {HW : World W}
    (target_users : targets) (b : bot W) :
  (login b).1 = Ret false →
  trace (run target_users b).2
  = trace (login b).2
    ++ [ Enter Cleanup; Quit;
         match (driver_quit (driver (login b).2)).1 with
         | Ret _ => Log Info SessionEnded
         | Raise e => Log Error (CleanupError e)
         end ].
Proof.
  intros Hlogin. unfold run, try_finally, try_except. rewrite bind_unfold.
  destruct (login b) as [r b1]. simpl in Hlogin. subst r. cbn [negb fst snd].
  unfold mret, M_ret. cbv iota beta.
  unfold cleanup, try_except, logger_info, logger_error, call, emit.
  unfold mbind, M_bind. cbn.
  browser_cases; rewrite <- !app_assoc; reflexivity.
Qed.

Lemma run_after_failed_login_witness :
  trace (run (HW := Scripted.scripted login_fails) (Names ["chairo_store101"; "sandanu_hewage"])
           (Scripted.session login_fails (PDict default_config))).2
  = trace (login (HW := Scripted.scripted login_fails)
             (Scripted.session login_fails (PDict default_config))).2
    ++ [ Enter Cleanup; Quit; Log Info SessionEnded ].
Proof.
  apply (run_after_failed_login (HW := Scripted.scripted login_fails)
           (Names ["chairo_store101"; "sandanu_hewage"])
           (Scripted.session login_fails (PDict default_config))).
  reflexivity.
Defined.

(** ** Failures on a post

    What the loops do when a turn fails, read off the events of the trace
    rather than its markers. *)





Section Continue.
Context {W : Type} {HW : World W}.














(** *** The loops *)



(** *** A profile *)








(** *** A run *)





End Continue.


